(** * Site finder: the CSV/GeoJSON ingestion pipeline of [CSVReader.ts]

    A shallow embedding of the loaders of [src/components/CSVReader.ts]
    (the CSV version and its later GeoJSON refactoring) together with the
    JavaScript builtins they call ([parseFloat], [parseInt], [isNaN], the
    relational operators on numbers, object spread and rest patterns),
    and of the scripts around them: the CSV to GeoJSON preprocessing,
    [scripts/splitCsv.js] and the loop of [process-images.mjs].

    - JavaScript numbers are IEEE 754 binary64 values: [spec_float] of
      the standard library at precision 53 and maximal exponent 1024.
    - A parsed CSV row (Papa.parse with [header: true]) is an object whose
      fields are strings: a [gmap string string].  Reading a missing
      field gives [undefined], here [None].
    - [properties] objects are [gmap string value].
    - A promise is modelled by its [outcome]: resolved or rejected. *)

From Stdlib Require Import ZArith String Ascii List Bool Lia.
From Stdlib Require Import Floats.SpecFloat.
From stdpp Require Import base option list gmap strings pretty fin_maps.

Local Open Scope Z_scope.
Local Open Scope string_scope.

(** ** JavaScript numbers *)

Module JS.

Definition number : Type := spec_float.

Definition prec : Z := 53.
Definition emax : Z := 1024.

Definition NaN : number := S754_nan.
Definition Infinity : number := S754_infinity false.
Definition pos_zero : number := S754_zero false.

(** [isNaN(x)] for an [x] that already is a number. *)
Definition isNaN (x : number) : bool :=
  match x with
  | S754_nan => true
  | _ => false
  end.

(** [Number.isFinite]. *)
Definition isFinite (x : number) : bool :=
  match x with
  | S754_zero _ | S754_finite _ _ _ => true
  | _ => false
  end.

(** The relational operators [<], [>], [<=], [>=] on numbers: each is
    [false] as soon as one operand is NaN. *)
Definition lt (x y : number) : bool := SFltb x y.
Definition gt (x y : number) : bool := SFltb y x.
Definition le (x y : number) : bool := SFleb x y.
Definition ge (x y : number) : bool := SFleb y x.

(** [ToBoolean] on a number: NaN, +0 and -0 are falsy. *)
Definition truthy (x : number) : bool :=
  match x with
  | S754_nan | S754_zero _ => false
  | _ => true
  end.

(** [x || 0] for a number [x]. *)
Definition or_zero (x : number) : number :=
  if truthy x then x else pos_zero.

(** The number nearest to the integer [z] (round to nearest, ties to
    even); [neg] is the sign given to a zero. *)
Definition of_Z (neg : bool) (z : Z) : number :=
  binary_normalize prec emax z 0 neg.

(** The number nearest to [(-1)^neg * m * 10^e10], the value of a
    decimal literal with digits [m] and decimal exponent [e10]. *)
Definition of_decimal (neg : bool) (m : Z) (e10 : Z) : number :=
  match m with
  | Zpos p =>
      match e10 with
      | Zneg k =>
          SFdiv prec emax (S754_finite neg p 0)
                (S754_finite false (Pos.pow 10 k) 0)
      | _ => of_Z neg (if neg then - (m * 10 ^ e10) else m * 10 ^ e10)
      end
  | _ => S754_zero neg
  end.

(** *** Scanning strings *)

(** White space and line terminators skipped by [parseFloat] and
    [parseInt]; strings are sequences of ASCII characters here, so these
    are TAB, LF, VT, FF, CR and the space. *)
Definition is_white_space (c : ascii) : bool :=
  let n := nat_of_ascii c in
  ((9 <=? n) && (n <=? 13))%nat || (n =? 32)%nat.

Fixpoint trim_start (s : string) : string :=
  match s with
  | String c t => if is_white_space c then trim_start t else s
  | EmptyString => s
  end.

Definition is_digit (c : ascii) : bool :=
  let n := nat_of_ascii c in ((48 <=? n) && (n <=? 57))%nat.

Definition digit_value (c : ascii) : Z := Z.of_nat (nat_of_ascii c) - 48.

(** Reads the longest run of decimal digits at the head of [s]:
    returns the value of [acc] followed by these digits, how many were
    read, and what follows them. *)
Fixpoint read_digits (acc : Z) (s : string) : Z * Z * string :=
  match s with
  | String c t =>
      if is_digit c then
        let '(v, n, r) := read_digits (10 * acc + digit_value c) t in
        (v, n + 1, r)
      else (acc, 0, s)
  | EmptyString => (acc, 0, s)
  end.

(** An optional sign: [true] for a minus. *)
Definition read_sign (s : string) : bool * string :=
  match s with
  | String "-" t => (true, t)
  | String "+" t => (false, t)
  | _ => (false, s)
  end.

(** The value of an [ExponentPart] at the head of [s], or 0 when there
    is none (an [e] that no digit follows is not part of the literal). *)
Definition read_exponent (s : string) : Z :=
  match s with
  | String c t =>
      if (c =? "e")%char || (c =? "E")%char then
        let '(neg, t') := read_sign t in
        let '(v, n, _) := read_digits 0 t' in
        if Z.eqb n 0 then 0 else if neg then - v else v
      else 0
  | EmptyString => 0
  end.

(** [parseFloat(string)] on a string: the value of the longest prefix of
    the trimmed input that is a [StrDecimalLiteral], NaN if there is
    none. *)
Definition parseFloat (input : string) : number :=
  let '(neg, s) := read_sign (trim_start input) in
  if String.prefix "Infinity" s then S754_infinity neg
  else
    let '(ip, ni, s1) := read_digits 0 s in
    let '(m, nf, s2) :=
      match s1 with
      | String "." t => read_digits ip t
      | _ => (ip, 0, s1)
      end in
    if Z.eqb (ni + nf) 0 then NaN
    else of_decimal neg m (read_exponent s2 - nf).

(** [parseInt(string, 10)] on a string. *)
Definition parseInt10 (input : string) : number :=
  let '(neg, s) := read_sign (trim_start input) in
  let '(v, n, _) := read_digits 0 s in
  if Z.eqb n 0 then NaN else of_Z neg (if neg then - v else v).

(** [ToString] of the value of a row field: a string, or [undefined]
    when the row has no such column. *)
Definition ToString (v : option string) : string :=
  match v with
  | Some s => s
  | None => "undefined"
  end.

End JS.

(** ** Features, rows and promises *)

(** The values found in a [properties] object. *)
Inductive value : Type :=
  | VUndefined
  | VString (s : string)
  | VNumber (n : JS.number).

(** A feature [{ type: "Feature", geometry: { type: "Point",
    coordinates }, properties }]; the two [type] tags are constants. *)
Record GeoJSONFeature : Type := {
  coordinates : JS.number * JS.number;
  properties : gmap string value
}.

(** [{ type: "FeatureCollection", features }]. *)
Record GeoJSONFeatureCollection : Type := {
  features : list GeoJSONFeature
}.

(** [row.k]: the field as a value, [undefined] when it is missing. *)
Definition field (row : gmap string string) (k : string) : value :=
  match row !! k with
  | Some s => VString s
  | None => VUndefined
  end.

(** The members of an object literal, in source order: [k: v], or the
    spread [...r] of an object of strings. *)
Inductive member : Type :=
  | Prop_ (k : string) (v : value)
  | Spread (r : gmap string string).

Definition define_member (o : gmap string value) (m : member) : gmap string value :=
  match m with
  | Prop_ k v => <[k := v]> o
  | Spread r => (VString <$> r) ∪ o
  end.

(** An object literal: its members are defined from left to right, a
    later one replacing an earlier one of the same key. *)
Definition object_literal (ms : list member) : gmap string value :=
  foldl define_member ∅ ms.

(** [features.push(f)]. *)
Definition push (fs : list GeoJSONFeature) (f : GeoJSONFeature) : list GeoJSONFeature :=
  fs ++ [f].

(** What a row callback does to the array it fills: it pushes the
    feature it built, or returns early and leaves the array as it is. *)
Definition push_if (fs : list GeoJSONFeature) (o : option GeoJSONFeature) : list GeoJSONFeature :=
  match o with
  | Some f => push fs f
  | None => fs
  end.

(** The settled state of a promise. *)
Inductive outcome (A : Type) : Type :=
  | Resolved (a : A)
  | Rejected (reason : string).
Arguments Resolved {A} a.
Arguments Rejected {A} reason.

Definition then_ {A B : Type} (p : outcome A) (k : A -> outcome B) : outcome B :=
  match p with
  | Resolved a => k a
  | Rejected e => Rejected e
  end.

Notation "x <- p ;; k" := (then_ p (fun x => k))
  (at level 100, p at next level, right associativity).

(** [try { body } catch (e) { console.error(...) }] around a body that
    updates the array [fs]: a failure is logged and [fs] is kept. *)
Definition try_catch {A : Type} (body : outcome A) (fs : A) : A :=
  match body with
  | Resolved fs' => fs'
  | Rejected _ => fs
  end.

(** The decimal digits of a shard ordinal, as in a template literal. *)
Definition ordinal_to_string (i : nat) : string := pretty i.

Definition totalChunks : nat := 18.

(** ** The CSV loaders ([src/components/CSVReader.ts]) *)

Module CSVReader.

Section Loaders.

(** [fetch(url)], [response.text()] and [Papa.parse(text, { header:
    true, skipEmptyLines: true })] taken together: the rows handed to
    the callbacks in source order, or the rejection of the fetch or of
    the decoding.  Papa.parse completes on every string (a malformed
    line is reported in [results.errors], not to the [error]
    callback), so a rejection comes before any row is seen. *)
Variable fetch_rows : string -> outcome (list (gmap string string)).

(** The callback of [readCompetitionsData]: the feature pushed for
    [row], if any. *)
Definition competitions_row (row : gmap string string) : option GeoJSONFeature :=
  if bool_decide (row !! "longitude" = Some "") || bool_decide (row !! "latitude" = Some "")
  then None
  else if bool_decide (row !! "type" = Some "Storage")
          || bool_decide (row !! "type" = Some "Self storage facility")
          || bool_decide (row !! "type" = Some "Storage facility")
  then
    let longitude := row !! "longitude" in
    let latitude := row !! "latitude" in
    let rest := delete "latitude" (delete "longitude" row) in
    let longitudeNum := JS.parseFloat (JS.ToString longitude) in
    let latitudeNum := JS.parseFloat (JS.ToString latitude) in
    if JS.isNaN longitudeNum || JS.isNaN latitudeNum then None
    else Some {|
      coordinates := (longitudeNum, latitudeNum);
      properties := object_literal [
        Prop_ "query" (field row "query");
        Prop_ "name" (field row "name");
        Prop_ "address" (field row "full_address");
        Prop_ "phone" (field row "phone");
        Prop_ "site" (field row "site");
        Prop_ "pointType" (VString "competitor");
        Spread rest ]
    |}
  else None.

Definition readCompetitionsData : outcome GeoJSONFeatureCollection :=
  rows <- fetch_rows "/competition_data.csv" ;;
  Resolved {| features := foldl (fun fs row => push_if fs (competitions_row row)) [] rows |}.

(** The callback of [readCommercialLandData]. *)
Definition commercial_row (row : gmap string string) : option GeoJSONFeature :=
  let longitude := JS.parseFloat (JS.ToString (row !! "longitude")) in
  let latitude := JS.parseFloat (JS.ToString (row !! "latitude")) in
  if JS.isNaN longitude || JS.isNaN latitude then None
  else Some {|
    coordinates := (latitude, longitude);
    properties := object_literal [
      Prop_ "outcode" (field row "outcode");
      Prop_ "pageTitle" (field row "pageTitle");
      Prop_ "pricePerSqFt" (field row "pricePerSqFt");
      Prop_ "price_1" (field row "price_1");
      Prop_ "price_2" (field row "price_2");
      Prop_ "property" (field row "property");
      Prop_ "propertySubType" (field row "propertySubType");
      Prop_ "sector" (field row "sector");
      Prop_ "size" (field row "size");
      Prop_ "type" (field row "type");
      Prop_ "ukCountry" (field row "ukCountry");
      Prop_ "url" (field row "url");
      Prop_ "id" (field row "id");
      Prop_ "pointType" (VString "commercial") ]
  |}.

Definition readCommercialLandData : outcome GeoJSONFeatureCollection :=
  rows <- fetch_rows "/commercial_land.csv" ;;
  Resolved {| features := foldl (fun fs row => push_if fs (commercial_row row)) [] rows |}.

(** The [step] callback of [readPopulationData]. *)
Definition population_row (row : gmap string string) : option GeoJSONFeature :=
  let Latitude := row !! "Latitude" in
  let Longitude := row !! "Longitude" in
  let rest := delete "Longitude" (delete "Latitude" row) in
  let longitude := JS.parseFloat (JS.ToString Longitude) in
  let latitude := JS.parseFloat (JS.ToString Latitude) in
  if JS.isNaN longitude || JS.isNaN latitude then None
  else Some {|
    coordinates := (longitude, latitude);
    properties := object_literal [
      Prop_ "pointType" (VString "population");
      Spread rest ]
  |}.

Definition readPopulationData : outcome GeoJSONFeatureCollection :=
  rows <- fetch_rows "/postcode_to_bua_mapped.csv" ;;
  Resolved {| features := foldl (fun fs row => push_if fs (population_row row)) [] rows |}.

(** The callback of [readTrafficData]. *)
Definition traffic_row (row : gmap string string) : option GeoJSONFeature :=
  let longitude := JS.parseFloat (JS.ToString (row !! "longitude")) in
  let latitude := JS.parseFloat (JS.ToString (row !! "latitude")) in
  if JS.isNaN longitude || JS.isNaN latitude then None
  else Some {|
    coordinates := (longitude, latitude);
    properties := object_literal [
      Prop_ "pointType" (VString "traffic");
      Prop_ "year" (VNumber (JS.parseInt10 (JS.ToString (row !! "year"))));
      Prop_ "all_motor_vehicles"
        (VNumber (JS.or_zero (JS.parseInt10 (JS.ToString (row !! "all_motor_vehicles"))))) ]
  |}.

Definition readTrafficData : outcome GeoJSONFeatureCollection :=
  rows <- fetch_rows "/traffic_data.csv" ;;
  Resolved {| features := foldl (fun fs row => push_if fs (traffic_row row)) [] rows |}.

(** The [step] callback of [loadVisiblePopulation]. *)
Definition visible_row (minLng minLat maxLng maxLat : JS.number)
    (row : gmap string string) : option GeoJSONFeature :=
  let Latitude := row !! "Latitude" in
  let Longitude := row !! "Longitude" in
  let BUA_Population := row !! "BUA_Population" in
  let rest := delete "BUA_Population" (delete "Longitude" (delete "Latitude" row)) in
  let lat := JS.parseFloat (JS.ToString Latitude) in
  let lng := JS.parseFloat (JS.ToString Longitude) in
  if JS.isNaN lat || JS.isNaN lng
     || JS.lt lng minLng || JS.gt lng maxLng
     || JS.lt lat minLat || JS.gt lat maxLat
  then None
  else Some {|
    coordinates := (lng, lat);
    properties := object_literal [
      Spread rest;
      Prop_ "BUA_Population"
        (VNumber (JS.or_zero (JS.parseInt10 (JS.ToString BUA_Population)))) ]
  |}.

Definition chunk_url (i : nat) : string :=
  "/chunks/chunk_" ++ ordinal_to_string i ++ ".csv".

(** One turn of the [for] loop of [loadVisiblePopulation], on the
    array [fs] filled so far. *)
Definition load_chunk (minLng minLat maxLng maxLat : JS.number)
    (fs : list GeoJSONFeature) (i : nat) : list GeoJSONFeature :=
  let url := chunk_url i in
  try_catch
    (rows <- fetch_rows url ;;
     Resolved (foldl (fun fs row => push_if fs (visible_row minLng minLat maxLng maxLat row)) fs rows))
    fs.

Definition loadVisiblePopulation (minLng minLat maxLng maxLat : JS.number)
    : outcome GeoJSONFeatureCollection :=
  let features := foldl (load_chunk minLng minLat maxLng maxLat) [] (seq 1 totalChunks) in
  Resolved {| features := features |}.

End Loaders.

End CSVReader.

(** ** The GeoJSON loaders (the refactored reader) *)

Module GeoJSONReader.

(** What the loaders use of a fetch [Response]. *)
Record Response : Type := {
  ok : bool;
  status : string;
  statusText : string;
  text : outcome string;
  json : outcome GeoJSONFeatureCollection
}.

Section Loaders.

Variable fetch : string -> outcome Response.

Definition fetchGeoJSON (url : string) : outcome GeoJSONFeatureCollection :=
  response <- fetch url ;;
  if negb (ok response) then
    errorText <- text response ;;
    Rejected ("Failed to fetch " ++ url ++ ": " ++ status response ++ " "
              ++ statusText response ++ ". " ++ errorText)
  else json response.

Definition readCompetitionsData : outcome GeoJSONFeatureCollection :=
  fetchGeoJSON "/competition_data.geojson".

Definition readCommercialLandData : outcome GeoJSONFeatureCollection :=
  fetchGeoJSON "/commercial_land.geojson".

Definition readTrafficData : outcome GeoJSONFeatureCollection :=
  fetchGeoJSON "/traffic_data.geojson".

(** The predicate given to [filter] in [loadVisiblePopulation]. *)
Definition visible (minLng minLat maxLng maxLat : JS.number)
    (feature : GeoJSONFeature) : bool :=
  let '(lng, lat) := coordinates feature in
  JS.ge lng minLng && JS.le lng maxLng && JS.ge lat minLat && JS.le lat maxLat.

Definition chunk_url (i : nat) : string :=
  "/chunks/chunk_" ++ ordinal_to_string i ++ ".geojson".

(** One turn of the [for] loop of [loadVisiblePopulation], on the
    array [allFeatures] filled so far. *)
Definition load_chunk (minLng minLat maxLng maxLat : JS.number)
    (allFeatures : list GeoJSONFeature) (i : nat) : list GeoJSONFeature :=
  let url := chunk_url i in
  try_catch
    (chunkCollection <- fetchGeoJSON url ;;
     let visibleFeatures :=
       List.filter (visible minLng minLat maxLng maxLat) (features chunkCollection) in
     Resolved (allFeatures ++ visibleFeatures)%list)
    allFeatures.

Definition loadVisiblePopulation (minLng minLat maxLng maxLat : JS.number)
    : outcome GeoJSONFeatureCollection :=
  let allFeatures := foldl (load_chunk minLng minLat maxLng maxLat) [] (seq 1 totalChunks) in
  Resolved {| features := allFeatures |}.

End Loaders.

End GeoJSONReader.

(** ** The four datasets of the whole-file loaders *)

Inductive dataset : Type := competitor | commercial | traffic | population.

(** The [pointType] each loader writes. *)
Definition pointType (d : dataset) : string :=
  match d with
  | competitor => "competitor"
  | commercial => "commercial"
  | traffic => "traffic"
  | population => "population"
  end.

(** The columns each loader reads the coordinates from. *)
Definition lng_column (d : dataset) : string :=
  match d with population => "Longitude" | _ => "longitude" end.

Definition lat_column (d : dataset) : string :=
  match d with population => "Latitude" | _ => "latitude" end.

Definition source_url (d : dataset) : string :=
  match d with
  | competitor => "/competition_data.csv"
  | commercial => "/commercial_land.csv"
  | traffic => "/traffic_data.csv"
  | population => "/postcode_to_bua_mapped.csv"
  end.

(** The row callback and the loader of each dataset. *)
Definition row_callback (d : dataset) : gmap string string -> option GeoJSONFeature :=
  match d with
  | competitor => CSVReader.competitions_row
  | commercial => CSVReader.commercial_row
  | traffic => CSVReader.traffic_row
  | population => CSVReader.population_row
  end.

Definition whole_file_load (d : dataset)
    (fetch_rows : string -> outcome (list (gmap string string)))
    : outcome GeoJSONFeatureCollection :=
  match d with
  | competitor => CSVReader.readCompetitionsData fetch_rows
  | commercial => CSVReader.readCommercialLandData fetch_rows
  | traffic => CSVReader.readTrafficData fetch_rows
  | population => CSVReader.readPopulationData fetch_rows
  end.

(** The numbers parsed from the two coordinate columns of a row. *)
Definition raw_lng (d : dataset) (row : gmap string string) : JS.number :=
  JS.parseFloat (JS.ToString (row !! lng_column d)).

Definition raw_lat (d : dataset) (row : gmap string string) : JS.number :=
  JS.parseFloat (JS.ToString (row !! lat_column d)).

(** A rectangle [(minLng, minLat, maxLng, maxLat)]. *)
Record BoundingBox : Type := {
  minLng : JS.number;
  minLat : JS.number;
  maxLng : JS.number;
  maxLat : JS.number
}.

(** The rule of the bounding-box filter, with the comparisons of
    JavaScript numbers. *)
Definition in_box (b : BoundingBox) (lng lat : JS.number) : bool :=
  JS.le (minLng b) lng && JS.le lng (maxLng b)
  && JS.le (minLat b) lat && JS.le lat (maxLat b).

(** The four bounds are numbers. *)
Definition numeric_box (b : BoundingBox) : Prop :=
  JS.isNaN (minLng b) = false /\ JS.isNaN (minLat b) = false /\
  JS.isNaN (maxLng b) = false /\ JS.isNaN (maxLat b) = false.

(** The windowed loaders applied to a box. *)
Definition visible_row (b : BoundingBox) : gmap string string -> option GeoJSONFeature :=
  CSVReader.visible_row (minLng b) (minLat b) (maxLng b) (maxLat b).

Definition visible (b : BoundingBox) : GeoJSONFeature -> bool :=
  GeoJSONReader.visible (minLng b) (minLat b) (maxLng b) (maxLat b).

Definition load_window_csv
    (fetch_rows : string -> outcome (list (gmap string string)))
    (b : BoundingBox) : outcome GeoJSONFeatureCollection :=
  CSVReader.loadVisiblePopulation fetch_rows (minLng b) (minLat b) (maxLng b) (maxLat b).

Definition load_window_geojson
    (fetch : string -> outcome GeoJSONReader.Response)
    (b : BoundingBox) : outcome GeoJSONFeatureCollection :=
  GeoJSONReader.loadVisiblePopulation fetch (minLng b) (minLat b) (maxLng b) (maxLat b).

(** Integers as numbers, for the examples. *)
Definition num (z : Z) : JS.number := JS.of_Z false z.

(** A row from its columns. *)
Definition row_of (l : list (string * string)) : gmap string string :=
  list_to_map l.

(** A promise that was rejected. *)
Definition rejected {A : Type} (p : outcome A) : bool :=
  match p with
  | Rejected _ => true
  | Resolved _ => false
  end.

(** Both coordinates of a feature are numbers. *)
Definition numeric_coordinates (f : GeoJSONFeature) : Prop :=
  JS.isNaN (fst (coordinates f)) = false /\ JS.isNaN (snd (coordinates f)) = false.

(** *** Vocabulary of the specification *)



(** A raw coordinate value that does not parse to a number. *)
Definition unparsable (v : option string) : Prop :=
  JS.isNaN (JS.parseFloat (JS.ToString v)) = true.

(** The coordinate domain of the data model: finite, a longitude in
    [-180, 180] and a latitude in [-90, 90]. *)
Definition in_domain (lng lat : JS.number) : bool :=
  JS.isFinite lng && JS.isFinite lat
  && JS.le (num (-180)) lng && JS.le lng (num 180)
  && JS.le (num (-90)) lat && JS.le lat (num 90).

(** The drop rule with the domain check: a row whose raw coordinates
    are outside the domain gives no feature. *)
Definition coordinate_domain_rule (d : dataset) (row : gmap string string) : Prop :=
  in_domain (raw_lng d row) (raw_lat d row) = false -> row_callback d row = None.


(** What the windowed loaders keep of one shard: the visible rows of a
    shard that could be read, nothing of one that could not. *)
Definition shard_survivors
    (fetch_rows : string -> outcome (list (gmap string string)))
    (b : BoundingBox) (i : nat) : list GeoJSONFeature :=
  match fetch_rows (CSVReader.chunk_url i) with
  | Resolved rows => omap (visible_row b) rows
  | Rejected _ => []
  end.

Definition chunk_survivors
    (fetch : string -> outcome GeoJSONReader.Response)
    (b : BoundingBox) (i : nat) : list GeoJSONFeature :=
  match GeoJSONReader.fetchGeoJSON fetch (GeoJSONReader.chunk_url i) with
  | Resolved chunkCollection => List.filter (visible b) (features chunkCollection)
  | Rejected _ => []
  end.

(** The shard ordinals other than [k]. *)
Definition ordinals_without (k : nat) : list nat :=
  List.filter (fun i => negb (Nat.eqb i k)) (seq 1 totalChunks).

(** [out] holds the features of the rows of [rows] that the callback
    [g] keeps, in the order of the rows. *)
Inductive emitted_in_order {A : Type} (g : A -> option GeoJSONFeature)
    : list A -> list GeoJSONFeature -> Prop :=
  | emitted_nil : emitted_in_order g [] []
  | emitted_keep row rows f out :
      g row = Some f -> emitted_in_order g rows out ->
      emitted_in_order g (row :: rows) (f :: out)
  | emitted_drop row rows out :
      g row = None -> emitted_in_order g rows out ->
      emitted_in_order g (row :: rows) out.

(** The traffic rule with an absent [year]: a [year] that does not
    parse leaves the property out or undefined. *)
Definition year_absent_rule (row : gmap string string) : Prop :=
  forall f, CSVReader.traffic_row row = Some f ->
  JS.isNaN (JS.parseInt10 (JS.ToString (row !! "year"))) = true ->
  properties f !! "year" = None \/ properties f !! "year" = Some VUndefined.

(** A feature carries the discriminator of the dataset [d]. *)
Definition carries_pointType (d : dataset) (f : GeoJSONFeature) : Prop :=
  properties f !! "pointType" = Some (VString (pointType d)).

(** *** Example rows *)

Definition example_box : BoundingBox :=
  {| minLng := num 0; minLat := num 0; maxLng := num 10; maxLat := num 20 |}.


Definition far_example : gmap string string :=
  row_of [("Longitude", "-100"); ("Latitude", "80")].

Definition commercial_example : gmap string string :=
  row_of [("longitude", "10"); ("latitude", "20"); ("type", "Office")].



Definition out_of_range_example : gmap string string :=
  row_of [("longitude", "200"); ("latitude", "95")].

Definition unparsable_example : gmap string string :=
  row_of [("longitude", "abc"); ("latitude", "20")].

Definition traffic_example : gmap string string :=
  row_of [("longitude", "10"); ("latitude", "20");
          ("year", "n/a"); ("all_motor_vehicles", "many")].

Definition population_example : gmap string string :=
  row_of [("Longitude", "10"); ("Latitude", "20");
          ("BUA_Population", "1234"); ("BUA_Name", "Leeds")].

Definition override_example : gmap string string :=
  row_of [("longitude", "10"); ("latitude", "20"); ("type", "Storage");
          ("full_address", "1 High Street, Leeds"); ("address", "1 High Street");
          ("pointType", "shop")].

(** The box [b] lies within the box [b']. *)
Definition box_within (b b' : BoundingBox) : bool :=
  JS.le (minLng b') (minLng b) && JS.le (maxLng b) (maxLng b')
  && JS.le (minLat b') (minLat b) && JS.le (maxLat b) (maxLat b').

Definition wide_box : BoundingBox :=
  {| minLng := num (-10); minLat := num (-10); maxLng := num 100; maxLat := num 100 |}.

(** A response that is [ok] and holds two features, and a loader of
    rows that finds the same three rows everywhere. *)
Definition example_response : GeoJSONReader.Response :=
  {| GeoJSONReader.ok := true; GeoJSONReader.status := "200";
     GeoJSONReader.statusText := "OK"; GeoJSONReader.text := Resolved "";
     GeoJSONReader.json := Resolved {| features :=
       [ {| coordinates := (num 5, num 5); properties := ∅ |};
         {| coordinates := (num 50, num 5); properties := ∅ |} ] |} |}.

Definition example_fetch (url : string) : outcome GeoJSONReader.Response :=
  Resolved example_response.

(** The property names of the commercial field map, and its columns. *)
Definition commercial_columns : list string :=
  ["outcode"; "pageTitle"; "pricePerSqFt"; "price_1"; "price_2"; "property";
   "propertySubType"; "sector"; "size"; "type"; "ukCountry"; "url"; "id"].

(** The loader [fetch_rows] with the shard [k] made unreadable. *)
Definition without_shard
    (fetch_rows : string -> outcome (list (gmap string string))) (k : nat)
    (url : string) : outcome (list (gmap string string)) :=
  if String.eqb url (CSVReader.chunk_url k) then Rejected "unreadable"
  else fetch_rows url.

Definition example_fetch_rows (url : string) : outcome (list (gmap string string)) :=
  Resolved [population_example; unparsable_example;
            row_of [("Longitude", "50"); ("Latitude", "5")]].

(** ** The preprocessing script (CSV to GeoJSON) *)

Module Preprocess.

(** [ToBoolean] of a row field: [undefined] and the empty string are
    falsy. *)
Definition truthy (v : option string) : bool :=
  match v with
  | Some s => negb (String.eqb s "")
  | None => false
  end.

(** [.filter(Boolean)] on an array of features and [null]s. *)
Definition filter_Boolean (l : list (option GeoJSONFeature)) : list GeoJSONFeature :=
  omap id l.

(** The two callbacks of [processCompetitionData] and the collection
    it writes, from the rows that [readCsv] returned. *)
Definition competition_filter (row : gmap string string) : bool :=
  truthy (row !! "longitude") && truthy (row !! "latitude")
  && (bool_decide (row !! "type" = Some "Storage")
      || bool_decide (row !! "type" = Some "Self storage facility")
      || bool_decide (row !! "type" = Some "Storage facility")).

Definition competition_map (row : gmap string string) : option GeoJSONFeature :=
  let longitude := row !! "longitude" in
  let latitude := row !! "latitude" in
  let rest := delete "latitude" (delete "longitude" row) in
  let longitudeNum := JS.parseFloat (JS.ToString longitude) in
  let latitudeNum := JS.parseFloat (JS.ToString latitude) in
  if JS.isNaN longitudeNum || JS.isNaN latitudeNum then None
  else Some {|
    coordinates := (longitudeNum, latitudeNum);
    properties := object_literal [Spread rest; Prop_ "pointType" (VString "competitor")]
  |}.

Definition processCompetitionData (data : list (gmap string string))
    : GeoJSONFeatureCollection :=
  let features :=
    filter_Boolean (map competition_map (List.filter competition_filter data)) in
  {| features := features |}.

(** [processCommercialLandData]. *)
Definition commercial_filter (row : gmap string string) : bool :=
  truthy (row !! "longitude") && truthy (row !! "latitude").

Definition commercial_map (row : gmap string string) : option GeoJSONFeature :=
  let longitudeNum := JS.parseFloat (JS.ToString (row !! "latitude")) in
  let latitudeNum := JS.parseFloat (JS.ToString (row !! "longitude")) in
  if JS.isNaN longitudeNum || JS.isNaN latitudeNum then None
  else Some {|
    coordinates := (longitudeNum, latitudeNum);
    properties := object_literal [Spread row; Prop_ "pointType" (VString "commercial")]
  |}.

Definition processCommercialLandData (data : list (gmap string string))
    : GeoJSONFeatureCollection :=
  let features :=
    filter_Boolean (map commercial_map (List.filter commercial_filter data)) in
  {| features := features |}.

(** [processTrafficData]. *)
Definition traffic_filter (row : gmap string string) : bool :=
  truthy (row !! "longitude") && truthy (row !! "latitude").

Definition traffic_map (row : gmap string string) : option GeoJSONFeature :=
  let longitudeNum := JS.parseFloat (JS.ToString (row !! "longitude")) in
  let latitudeNum := JS.parseFloat (JS.ToString (row !! "latitude")) in
  if JS.isNaN longitudeNum || JS.isNaN latitudeNum then None
  else Some {|
    coordinates := (longitudeNum, latitudeNum);
    properties := object_literal [
      Prop_ "pointType" (VString "traffic");
      Prop_ "year" (VNumber (JS.parseInt10 (JS.ToString (row !! "year"))));
      Prop_ "all_motor_vehicles"
        (VNumber (JS.or_zero (JS.parseInt10 (JS.ToString (row !! "all_motor_vehicles"))))) ]
  |}.

Definition processTrafficData (data : list (gmap string string))
    : GeoJSONFeatureCollection :=
  let features :=
    filter_Boolean (map traffic_map (List.filter traffic_filter data)) in
  {| features := features |}.

(** The body of the loop of [processPopulationChunks]: the collection
    written for the rows of one chunk. *)
Definition population_filter (row : gmap string string) : bool :=
  truthy (row !! "Latitude") && truthy (row !! "Longitude").

Definition population_map (row : gmap string string) : option GeoJSONFeature :=
  let Latitude := row !! "Latitude" in
  let Longitude := row !! "Longitude" in
  let rest := delete "Longitude" (delete "Latitude" row) in
  let longitudeNum := JS.parseFloat (JS.ToString Longitude) in
  let latitudeNum := JS.parseFloat (JS.ToString Latitude) in
  if JS.isNaN longitudeNum || JS.isNaN latitudeNum then None
  else Some {|
    coordinates := (longitudeNum, latitudeNum);
    properties := object_literal [
      Spread rest;
      Prop_ "BUA_Population"
        (VNumber (JS.or_zero (JS.parseInt10 (JS.ToString (row !! "BUA_Population"))))) ]
  |}.

Definition processPopulationChunk (data : list (gmap string string))
    : GeoJSONFeatureCollection :=
  let features :=
    filter_Boolean (map population_map (List.filter population_filter data)) in
  {| features := features |}.

End Preprocess.

(** The collection that the script writes for each dataset (for the
    population, for one chunk). *)
Definition script_collection (d : dataset)
    : list (gmap string string) -> GeoJSONFeatureCollection :=
  match d with
  | competitor => Preprocess.processCompetitionData
  | commercial => Preprocess.processCommercialLandData
  | traffic => Preprocess.processTrafficData
  | population => Preprocess.processPopulationChunk
  end.

(** ** The chunking script ([scripts/splitCsv.js]) *)

Module SplitCsv.

Definition OUTPUT_DIR : string := "../public/chunks".

Definition ROWS_PER_FILE : nat := N.to_nat 100000.

(** A file being written: its path and the lines written to it so far,
    each of them followed by a line feed. *)
Definition file : Type := string * list string.

(** The variables of [splitCsv] and the files it has closed. *)
Record state : Type := {
  headers : option string;
  stream : option file;
  i : nat;
  row : nat;
  closed : list file
}.

Definition initial : state :=
  {| headers := None; stream := None; i := 0; row := 0; closed := [] |}.

(** [!headers]: [undefined] and the empty line are falsy. *)
Definition no_headers (h : option string) : bool :=
  match h with
  | Some s => String.eqb s ""
  | None => true
  end.

(** [path.join(OUTPUT_DIR, `chunk_${i}.csv`)]. *)
Definition chunk_path (i : nat) : string :=
  OUTPUT_DIR ++ "/" ++ "chunk_" ++ ordinal_to_string i ++ ".csv".

(** [stream?.end()]. *)
Definition end_stream (st : state) : list file :=
  match stream st with
  | Some f => (closed st ++ [f])%list
  | None => closed st
  end.

(** One turn of the [for await] loop on a line, with [n] rows per file;
    [None] is the TypeError of a write to an undefined stream. *)
Definition step (n : nat) (st : state) (line : string) : option state :=
  if no_headers (headers st) then
    Some {| headers := Some line; stream := stream st; i := i st; row := row st;
            closed := closed st |}
  else
    let st' :=
      if Nat.eqb (row st mod n) 0 then
        {| headers := headers st;
           stream := Some (chunk_path (S (i st)), [JS.ToString (headers st)]);
           i := S (i st); row := row st; closed := end_stream st |}
      else st in
    match stream st' with
    | Some (p, lines) =>
        Some {| headers := headers st'; stream := Some (p, (lines ++ [line])%list);
                i := i st'; row := S (row st'); closed := closed st' |}
    | None => None
    end.

Fixpoint loop (n : nat) (st : state) (lines : list string) : option state :=
  match lines with
  | [] => Some st
  | line :: lines' =>
      match step n st line with
      | Some st' => loop n st' lines'
      | None => None
      end
  end.

(** The files written for the lines of the input, in the order of
    their creation, with [n] rows per file. *)
Definition split_with (n : nat) (lines : list string) : option (list file) :=
  match loop n initial lines with
  | Some st => Some (end_stream st)
  | None => None
  end.

Definition splitCsv (lines : list string) : option (list file) :=
  split_with ROWS_PER_FILE lines.

(** The data rows of a chunk file: its lines after the header. *)
Definition rows_of (f : file) : list string := tail (snd f).

(** The lines of an input from its first non-empty line on. *)
Fixpoint from_header (lines : list string) : list string :=
  match lines with
  | line :: lines' => if String.eqb line "" then from_header lines' else lines
  | [] => []
  end.

End SplitCsv.

(** The number of data rows written to the open file. *)
Definition written (st : SplitCsv.state) : nat :=
  match SplitCsv.stream st with
  | Some f => length (SplitCsv.rows_of f)
  | None => 0
  end.

(** What holds of the variables of [splitCsv] after the header [h] and
    the data rows [d], with [n] rows per file. *)
Record split_invariant (n : nat) (h : string) (st : SplitCsv.state)
    (d : list string) : Prop := {
  inv_headers : SplitCsv.headers st = Some h;
  inv_truthy : h <> "";
  inv_row : SplitCsv.row st = length d;
  inv_i : SplitCsv.i st = length (SplitCsv.end_stream st);
  inv_rows : concat (map SplitCsv.rows_of (SplitCsv.end_stream st)) = d;
  inv_header : Forall (fun f => head (snd f) = Some h) (SplitCsv.end_stream st);
  inv_paths :
    map fst (SplitCsv.end_stream st)
    = map SplitCsv.chunk_path (seq 1 (length (SplitCsv.end_stream st)));
  inv_closed : Forall (fun f => length (SplitCsv.rows_of f) = n) (SplitCsv.closed st);
  inv_count : SplitCsv.row st = (length (SplitCsv.closed st) * n + written st)%nat;
  inv_stream :
    match SplitCsv.stream st with
    | Some f => (1 <= length (SplitCsv.rows_of f) <= n)%nat
    | None => True
    end
}.

(** ** The image script ([process-images.mjs]) *)

Module ProcessImages.

Section Script.

(** The network and the bucket, and a downloaded image
    [{ buffer, contentType }]. *)
Variable World : Type.
Variable image : Type.

(** [downloadImage(url)]: the image, or [null] after a failure that it
    logs. *)
Variable downloadImage : string -> World -> option image * World.

(** [uploadToS3(buffer, originalUrl, contentType)]: the location of the
    upload, or [null] after a failure that it logs; it rejects when
    [originalUrl] is no URL. *)
Variable uploadToS3 : image -> string -> World -> outcome (option string) * World.

(** [row.photo && row.photo.startsWith("http")]. *)
Definition has_remote_photo (r : gmap string string) : bool :=
  match r !! "photo" with
  | Some photo => negb (String.eqb photo "") && String.prefix "http" photo
  | None => false
  end.

(** The body of the loop on one row: the row as pushed to
    [updatedRows], and whether [processedCount] was incremented. *)
Definition process_row (r : gmap string string) (w : World)
    : outcome (gmap string string * bool) * World :=
  if has_remote_photo r then
    let photo := JS.ToString (r !! "photo") in
    let '(imageData, w1) := downloadImage photo w in
    match imageData with
    | Some img =>
        let '(s3Url, w2) := uploadToS3 img photo w1 in
        match s3Url with
        | Resolved (Some url) =>
            if negb (String.eqb url "")
            then (Resolved (<["photo" := url]> r, true), w2)
            else (Resolved (r, false), w2)
        | Resolved None => (Resolved (r, false), w2)
        | Rejected e => (Rejected e, w2)
        end
    | None => (Resolved (r, false), w1)
    end
  else (Resolved (r, false), w).

(** The loop of [processImages] from the state [(updatedRows,
    processedCount)]. *)
Fixpoint process_rows (rows : list (gmap string string))
    (updatedRows : list (gmap string string)) (processedCount : nat) (w : World)
    : outcome (list (gmap string string) * nat) * World :=
  match rows with
  | [] => (Resolved (updatedRows, processedCount), w)
  | r :: rows' =>
      match process_row r w with
      | (Resolved (r', counted), w') =>
          process_rows rows' (updatedRows ++ [r'])%list
            (if counted then S processedCount else processedCount) w'
      | (Rejected e, w') => (Rejected e, w')
      end
  end.

(** [processImages] on the rows of the CSV file: the rows it writes
    back and the count it reports. *)
Definition processImages (rows : list (gmap string string)) (w : World)
    : outcome (list (gmap string string) * nat) * World :=
  process_rows rows [] 0 w.

End Script.

End ProcessImages.

(** What the loop of [processImages] may do to a row: nothing but
    replace the [photo] of a row that has a remote one, by a value that
    is not empty. *)
Definition photo_update (r r' : gmap string string) : Prop :=
  delete "photo" r' = delete "photo" r
  /\ (ProcessImages.has_remote_photo r = false -> r' = r)
  /\ (ProcessImages.has_remote_photo r = true ->
      exists url, r' !! "photo" = Some url /\ url <> "").

(** A world in which every download and every upload succeeds. *)
Definition example_download (url : string) (w : unit) : option unit * unit :=
  (Some tt, w).

Definition example_upload (img : unit) (url : string) (w : unit)
    : outcome (option string) * unit :=
  (Resolved (Some ("https://bucket.s3.amazonaws.com/competition-photos/a.jpg")), w).

Definition photo_rows : list (gmap string string) :=
  [row_of [("name", "A"); ("photo", "http://example.org/a")];
   row_of [("name", "B"); ("photo", "local.jpg")];
   row_of [("name", "C")]].

(** * Properties *)

(** ** Order on numbers *)

Section NumberOrder.

Local Ltac cmp_cases :=
  repeat match goal with
    | |- context [Z.compare ?a ?b] => destruct (Z.compare_spec a b)
    | H : context [Z.compare ?a ?b] |- _ => destruct (Z.compare_spec a b)
    | |- context [Pos.compare ?a ?b] => destruct (Pos.compare_spec a b)
    | H : context [Pos.compare ?a ?b] |- _ => destruct (Pos.compare_spec a b)
    end.

Local Ltac by_order :=
  simpl in *; change (Pos.compare_cont Eq) with Pos.compare in *;
  cmp_cases; subst; simpl in *;
  try discriminate; try reflexivity; try lia.

Lemma SFcompare_antisym (x y : JS.number) (c : comparison) :
  SFcompare x y = Some c -> SFcompare y x = Some (CompOpp c).
Proof.
  destruct x as [[]|[]| |[] mx ex], y as [[]|[]| |[] my ey]; simpl;
    intros [= <-]; try reflexivity;
    change (Pos.compare_cont Eq) with Pos.compare;
    rewrite (Z.compare_antisym ex ey), (Pos.compare_antisym mx my);
    destruct (ex ?= ey)%Z, (mx ?= my)%positive; reflexivity.
Qed.

Lemma SFcompare_defined (x y : JS.number) :
  JS.isNaN x = false -> JS.isNaN y = false -> is_Some (SFcompare x y).
Proof.
  destruct x as [[]|[]| |[] mx ex], y as [[]|[]| |[] my ey]; simpl;
    intros; try discriminate; eauto.
Qed.

(** Between two numbers that are not NaN, [x < y] fails exactly when
    [x >= y] holds. *)
Lemma lt_false_ge (x y : JS.number) :
  JS.isNaN x = false -> JS.isNaN y = false ->
  JS.lt x y = false <-> JS.ge x y = true.
Proof.
  intros Hx Hy. unfold JS.lt, JS.ge, SFltb, SFleb.
  destruct (SFcompare_defined x y Hx Hy) as [c Hc].
  rewrite Hc, (SFcompare_antisym _ _ _ Hc).
  destruct c; simpl; split; congruence.
Qed.


Lemma lt_not_NaN (x y : JS.number) :
  JS.lt x y = true -> JS.isNaN x = false /\ JS.isNaN y = false.
Proof.
  unfold JS.lt, SFltb.
  destruct x as [[]|[]| |[] mx ex], y as [[]|[]| |[] my ey]; simpl;
    intros; try discriminate; auto.
Qed.

Lemma le_trans (x y z : JS.number) :
  JS.le x y = true -> JS.le y z = true -> JS.le x z = true.
Proof.
  unfold JS.le, SFleb.
  destruct x as [[]|[]| |[] mx ex], y as [[]|[]| |[] my ey],
           z as [[]|[]| |[] mz ez]; by_order.
Qed.

(** [x < y] excludes [y <= x]. *)
Lemma lt_not_le (x y : JS.number) :
  JS.lt x y = true -> JS.le y x = false.
Proof.
  unfold JS.lt, JS.le, SFltb, SFleb.
  destruct (SFcompare x y) as [c|] eqn:Hc; [|discriminate].
  rewrite (SFcompare_antisym _ _ _ Hc). destruct c; simpl; congruence.
Qed.

End NumberOrder.

(** ** Row callbacks: what is emitted *)

Section RowCallbacks.

Implicit Types (row : gmap string string) (f : GeoJSONFeature) (d : dataset).

Lemma orb_false_4 (a b : bool) : a || b = false -> a = false /\ b = false.
Proof. destruct a, b; auto. Qed.

(** A feature is emitted only from two coordinate columns that parse to
    numbers, and its pair is built from them in the order of the
    dataset. *)
Lemma row_callback_Some d row f :
  row_callback d row = Some f ->
  JS.isNaN (raw_lng d row) = false /\ JS.isNaN (raw_lat d row) = false /\
  coordinates f =
    match d with
    | commercial => (raw_lat d row, raw_lng d row)
    | _ => (raw_lng d row, raw_lat d row)
    end.
Proof.
  unfold raw_lng, raw_lat.
  destruct d; simpl;
    unfold CSVReader.competitions_row, CSVReader.commercial_row,
           CSVReader.traffic_row, CSVReader.population_row;
    repeat case_match; intros [= <-]; simpl;
    match goal with H : _ || _ = false |- _ => apply orb_false_4 in H as [? ?] end;
    auto.
Qed.

Lemma row_callback_NaN d row :
  JS.isNaN (raw_lng d row) = true \/ JS.isNaN (raw_lat d row) = true ->
  row_callback d row = None.
Proof.
  intros H. destruct (row_callback d row) as [f|] eqn:Hf; [|reflexivity].
  apply row_callback_Some in Hf as (Hl & Ha & _). destruct H; congruence.
Qed.


End RowCallbacks.

Section Windowed.

Implicit Types (row : gmap string string) (f : GeoJSONFeature) (b : BoundingBox).

Lemma visible_row_Some b row f :
  visible_row b row = Some f ->
  let lng := raw_lng population row in
  let lat := raw_lat population row in
  JS.isNaN lng = false /\ JS.isNaN lat = false /\
  JS.lt lng (minLng b) = false /\ JS.gt lng (maxLng b) = false /\
  JS.lt lat (minLat b) = false /\ JS.gt lat (maxLat b) = false /\
  coordinates f = (lng, lat).
Proof.
  unfold visible_row, CSVReader.visible_row, raw_lng, raw_lat; simpl.
  case_match; intros [= <-]; simpl.
  repeat match goal with H : _ || _ = false |- _ => apply orb_false_4 in H as [H ?] end.
  auto 10.
Qed.

Lemma visible_row_is_Some b row :
  let lng := raw_lng population row in
  let lat := raw_lat population row in
  is_Some (visible_row b row) <->
  JS.isNaN lng = false /\ JS.isNaN lat = false /\
  JS.lt lng (minLng b) = false /\ JS.gt lng (maxLng b) = false /\
  JS.lt lat (minLat b) = false /\ JS.gt lat (maxLat b) = false.
Proof.
  simpl. split.
  - intros [f Hf]. apply visible_row_Some in Hf. tauto.
  - unfold visible_row, CSVReader.visible_row, raw_lng, raw_lat; simpl.
    intros (-> & -> & -> & -> & -> & ->). simpl. eauto.
Qed.

End Windowed.

(** ** Loops that fill an array *)

Section Loops.

Context {A : Type}.
Implicit Types (g : A -> option GeoJSONFeature) (rows : list A).

(** A [forEach] whose callback pushes at most one feature per row
    leaves the features of the kept rows, in the order of the rows. *)
Lemma foldl_push_if g rows (fs : list GeoJSONFeature) :
  foldl (fun fs row => push_if fs (g row)) fs rows = (fs ++ omap g rows)%list.
Proof.
  revert fs. induction rows as [|row rows IH]; intros fs; simpl.
  - by rewrite app_nil_r.
  - rewrite IH. destruct (g row) as [f|]; simpl; [|done].
    unfold push. by rewrite <- app_assoc.
Qed.

End Loops.

Lemma whole_file_load_eq (d : dataset) fetch_rows :
  whole_file_load d fetch_rows =
  (rows <- fetch_rows (source_url d) ;;
   Resolved {| features := omap (row_callback d) rows |}).
Proof.
  destruct d; simpl;
    unfold CSVReader.readCompetitionsData, CSVReader.readCommercialLandData,
           CSVReader.readTrafficData, CSVReader.readPopulationData, then_;
    destruct (fetch_rows _); try reflexivity; by rewrite foldl_push_if.
Qed.

(** ** Object literals *)

Section Objects.

Implicit Types (o : gmap string value) (r : gmap string string) (k : string).

Lemma lookup_define_member o m k :
  define_member o m !! k =
    match m with
    | Prop_ k' v => if decide (k' = k) then Some v else o !! k
    | Spread r =>
        match r !! k with
        | Some s => Some (VString s)
        | None => o !! k
        end
    end.
Proof.
  destruct m as [k' v|r]; simpl.
  - case_decide; subst; [by rewrite lookup_insert_eq|by rewrite lookup_insert_ne].
  - rewrite lookup_union, lookup_fmap.
    destruct (r !! k), (o !! k); reflexivity.
Qed.

Lemma lookup_object_literal_snoc ms m k :
  object_literal (ms ++ [m]) !! k = define_member (object_literal ms) m !! k.
Proof. unfold object_literal. by rewrite foldl_app. Qed.

End Objects.

(** Evaluates the lookup of a concrete key in an object literal. *)
Ltac lookup_literal :=
  unfold object_literal; cbn [foldl];
  rewrite ?lookup_define_member;
  repeat (case_decide; try congruence);
  rewrite ?lookup_delete_ne by congruence;
  rewrite ?lookup_empty.

(** ** Windowed loading, shard by shard *)

Section Shards.

Variable fetch_rows : string -> outcome (list (gmap string string)).
Variable fetch : string -> outcome GeoJSONReader.Response.
Variable b : BoundingBox.

Lemma csv_load_chunks (ordinals : list nat) (fs : list GeoJSONFeature) :
  foldl (CSVReader.load_chunk fetch_rows (minLng b) (minLat b) (maxLng b) (maxLat b))
        fs ordinals
  = (fs ++ concat (map (shard_survivors fetch_rows b) ordinals))%list.
Proof.
  revert fs. induction ordinals as [|i ordinals IH]; intros fs; simpl.
  - by rewrite app_nil_r.
  - rewrite IH. unfold CSVReader.load_chunk, shard_survivors, try_catch, then_, visible_row.
    destruct (fetch_rows (CSVReader.chunk_url i)) as [rows|e]; simpl.
    + by rewrite foldl_push_if, <- app_assoc.
    + reflexivity.
Qed.

Lemma geojson_load_chunks (ordinals : list nat) (fs : list GeoJSONFeature) :
  foldl (GeoJSONReader.load_chunk fetch (minLng b) (minLat b) (maxLng b) (maxLat b))
        fs ordinals
  = (fs ++ concat (map (chunk_survivors fetch b) ordinals))%list.
Proof.
  revert fs. induction ordinals as [|i ordinals IH]; intros fs; simpl.
  - by rewrite app_nil_r.
  - rewrite IH. unfold GeoJSONReader.load_chunk, chunk_survivors, try_catch, then_, visible.
    destruct (GeoJSONReader.fetchGeoJSON fetch (GeoJSONReader.chunk_url i)) as [c|e]; simpl.
    + by rewrite <- app_assoc.
    + reflexivity.
Qed.

Lemma load_window_csv_eq :
  load_window_csv fetch_rows b
  = Resolved {| features := concat (map (shard_survivors fetch_rows b) (seq 1 totalChunks)) |}.
Proof. unfold load_window_csv, CSVReader.loadVisiblePopulation. by rewrite csv_load_chunks. Qed.

Lemma load_window_csv_features fc :
  load_window_csv fetch_rows b = Resolved fc ->
  features fc = concat (map (shard_survivors fetch_rows b) (seq 1 totalChunks)).
Proof. rewrite load_window_csv_eq. intros H. by injection H as <-. Qed.

Lemma load_window_geojson_eq :
  load_window_geojson fetch b
  = Resolved {| features := concat (map (chunk_survivors fetch b) (seq 1 totalChunks)) |}.
Proof.
  unfold load_window_geojson, GeoJSONReader.loadVisiblePopulation.
  by rewrite geojson_load_chunks.
Qed.

End Shards.

(** Leaving out the elements that contribute nothing does not change a
    concatenation. *)
Lemma concat_map_filter {A B : Type} (g : A -> list B) (p : A -> bool) (l : list A) :
  (forall i, p i = false -> g i = []) ->
  concat (map g l) = concat (map g (List.filter p l)).
Proof.
  intros Hg. induction l as [|i l IH]; simpl; [reflexivity|].
  destruct (p i) eqn:Hp; simpl.
  - by rewrite IH.
  - by rewrite (Hg i Hp), IH.
Qed.

Lemma concat_map_nil {A B : Type} (g : A -> list B) (l : list A) :
  (forall i, g i = []) -> concat (map g l) = [].
Proof. intros Hg. induction l as [|i l IH]; simpl; [reflexivity|]. by rewrite Hg, IH. Qed.

Lemma emitted_in_order_omap {A : Type} (g : A -> option GeoJSONFeature) (rows : list A) out :
  emitted_in_order g rows out <-> out = omap g rows.
Proof.
  split.
  - induction 1 as [|row rows f out Hg _ IH|row rows out Hg _ IH]; simpl;
      [reflexivity|rewrite Hg|rewrite Hg]; by rewrite IH.
  - intros ->. induction rows as [|row rows IH]; simpl; [constructor|].
    destruct (g row) as [f|] eqn:Hg; [by apply emitted_keep|by apply emitted_drop].
Qed.

Lemma parseFloat_10 : JS.parseFloat "10" = num 10.
Proof. vm_compute. reflexivity. Qed.

Lemma parseFloat_20 : JS.parseFloat "20" = num 20.
Proof. vm_compute. reflexivity. Qed.


Lemma isNaN_true (x : JS.number) : JS.isNaN x = true -> x = JS.NaN.
Proof. by destruct x. Qed.

Lemma or_zero_NaN (x : JS.number) : JS.isNaN x = true -> JS.or_zero x = JS.pos_zero.
Proof. by destruct x. Qed.

(** ** Claims about the ingestion pipeline *)

(** *** Coordinate order *)

(** C1. A row kept by the commercial loader is emitted with the pair
    [latitude, longitude]; a row kept by the competitor, traffic or
    population loader (whole-file, or windowed for the population) with
    the pair [longitude, latitude].  With the raw values 10 and 20 the
    pairs are [20, 10] and [10, 20]. *)
Theorem coordinate_order_per_dataset
    (d : dataset) (b : BoundingBox) (row : gmap string string) (f : GeoJSONFeature) :
  row_callback d row = Some f \/ (d = population /\ visible_row b row = Some f) ->
  coordinates f =
    match d with
    | commercial => (raw_lat d row, raw_lng d row)
    | _ => (raw_lng d row, raw_lat d row)
    end
  /\ (row !! lng_column d = Some "10" -> row !! lat_column d = Some "20" ->
      coordinates f =
        match d with
        | commercial => (num 20, num 10)
        | _ => (num 10, num 20)
        end).
Proof.
  intros H.
  assert (Hc : coordinates f =
    match d with
    | commercial => (raw_lat d row, raw_lng d row)
    | _ => (raw_lng d row, raw_lat d row)
    end).
  { destruct H as [H|[-> H]].
    - apply row_callback_Some in H. tauto.
    - apply visible_row_Some in H. tauto. }
  split; [exact Hc|].
  intros Hlng Hlat. rewrite Hc. unfold raw_lng, raw_lat.
  rewrite Hlng, Hlat. simpl JS.ToString.
  rewrite parseFloat_10, parseFloat_20. by destruct d.
Qed.

Lemma coordinate_order_per_dataset_witness :
  exists f, row_callback commercial commercial_example = Some f
            /\ coordinates f = (num 20, num 10).
Proof.
  destruct (row_callback commercial commercial_example) as [f|] eqn:E.
  - exists f. split; [reflexivity|].
    exact (proj2 (coordinate_order_per_dataset commercial example_box
                    commercial_example f (or_introl E)) eq_refl eq_refl).
  - vm_compute in E. discriminate.
Defined.

(** *** The type filter of the competitor dataset *)






(** *** Rows without usable coordinates *)

Lemma unparsable_missing : unparsable None.
Proof. reflexivity. Qed.

Lemma unparsable_empty : unparsable (Some "").
Proof. reflexivity. Qed.

Lemma omap_Forall {A : Type} (g : A -> option GeoJSONFeature) (P : GeoJSONFeature -> Prop)
    (rows : list A) :
  (forall row f, g row = Some f -> P f) -> Forall P (omap g rows).
Proof.
  intros Hg. induction rows as [|row rows IH]; simpl; [constructor|].
  destruct (g row) as [f|] eqn:E; [constructor; eauto|done].
Qed.

Lemma Forall_concat_map {A B : Type} (P : B -> Prop) (g : A -> list B) (l : list A) :
  (forall i, Forall P (g i)) -> Forall P (concat (map g l)).
Proof.
  intros Hg. induction l as [|i l IH]; simpl; [constructor|].
  apply Forall_app. split; [apply Hg|exact IH].
Qed.

Lemma row_callback_numeric d row f :
  row_callback d row = Some f -> numeric_coordinates f.
Proof.
  intros H. apply row_callback_Some in H as (Hl & Ha & Hc).
  unfold numeric_coordinates. rewrite Hc. by destruct d.
Qed.

Lemma visible_row_numeric b row f :
  visible_row b row = Some f -> numeric_coordinates f.
Proof.
  intros H. apply visible_row_Some in H. simpl in H.
  destruct H as (Hl & Ha & _ & _ & _ & _ & Hc).
  unfold numeric_coordinates. rewrite Hc. by split.
Qed.

(** C3, as the code has it.  In every dataset a row whose longitude or
    latitude column is missing, empty or does not parse to a number
    gives no feature, in the whole-file loaders and in the windowed
    one; so both coordinates of every feature of every collection the
    loaders return are numbers parsed from the row, never a
    placeholder.  The loaders test nothing else: they look neither at
    the range of a coordinate nor at its finiteness. *)
Theorem invalid_coordinates_dropped (d : dataset) (row : gmap string string) :
  unparsable (row !! lng_column d) \/ unparsable (row !! lat_column d) ->
  row_callback d row = None
  /\ (forall b, d = population -> visible_row b row = None)
  /\ unparsable None /\ unparsable (Some "")
  /\ (forall fetch_rows fc,
        whole_file_load d fetch_rows = Resolved fc ->
        Forall numeric_coordinates (features fc))
  /\ (forall fetch_rows b fc,
        load_window_csv fetch_rows b = Resolved fc ->
        Forall numeric_coordinates (features fc)).
Proof.
  intros H. split; [|split; [|split; [|split; [|split]]]].
  - apply row_callback_NaN. exact H.
  - intros b ->. apply eq_None_not_Some. intros Hs.
    apply visible_row_is_Some in Hs. simpl in Hs.
    destruct Hs as (Hl & Ha & _). unfold unparsable in H.
    unfold raw_lng, raw_lat in *. destruct H; congruence.
  - exact unparsable_missing.
  - exact unparsable_empty.
  - intros fetch_rows fc. rewrite whole_file_load_eq. unfold then_.
    destruct (fetch_rows _); intros [= <-]; simpl.
    apply omap_Forall. apply row_callback_numeric.
  - intros fetch_rows b fc Hfc. rewrite (load_window_csv_features _ _ _ Hfc).
    apply Forall_concat_map. intros i.
    unfold shard_survivors. destruct (fetch_rows _); [|constructor].
    apply omap_Forall. apply visible_row_numeric.
Qed.

Lemma invalid_coordinates_dropped_witness :
  row_callback competitor unparsable_example = None.
Proof.
  apply (invalid_coordinates_dropped competitor unparsable_example).
  left. reflexivity.
Defined.

(** No loader checks the range: the traffic row with longitude 200 and
    latitude 95 is emitted. *)
Lemma coordinate_domain_rule_refuted :
  ~ coordinate_domain_rule traffic out_of_range_example.
Proof.
  unfold coordinate_domain_rule. intros H.
  specialize (H eq_refl). vm_compute in H. discriminate.
Qed.

(** *** Shard fault tolerance *)

(** C4. The windowed population loader, in its CSV and its GeoJSON
    version, never rejects: it resolves to the survivors of the shards
    1 to 18 that could be read.  A shard [k] whose retrieval or
    decoding fails is skipped and the result is that of the other
    shards; if every shard fails the collection is empty. *)
Theorem shard_fault_tolerance
    (fetch_rows : string -> outcome (list (gmap string string)))
    (fetch : string -> outcome GeoJSONReader.Response) (b : BoundingBox) :
  load_window_csv fetch_rows b
    = Resolved {| features := concat (map (shard_survivors fetch_rows b) (seq 1 18)) |}
  /\ load_window_geojson fetch b
    = Resolved {| features := concat (map (chunk_survivors fetch b) (seq 1 18)) |}
  /\ (forall k, rejected (fetch_rows (CSVReader.chunk_url k)) = true ->
        load_window_csv fetch_rows b
        = Resolved {| features :=
            concat (map (shard_survivors fetch_rows b) (ordinals_without k)) |})
  /\ (forall k,
        rejected (GeoJSONReader.fetchGeoJSON fetch (GeoJSONReader.chunk_url k)) = true ->
        load_window_geojson fetch b
        = Resolved {| features :=
            concat (map (chunk_survivors fetch b) (ordinals_without k)) |})
  /\ ((forall i, rejected (fetch_rows (CSVReader.chunk_url i)) = true) ->
        load_window_csv fetch_rows b = Resolved {| features := [] |})
  /\ ((forall i,
         rejected (GeoJSONReader.fetchGeoJSON fetch (GeoJSONReader.chunk_url i)) = true) ->
        load_window_geojson fetch b = Resolved {| features := [] |}).
Proof.
  change 18%nat with totalChunks.
  split; [apply load_window_csv_eq|]. split; [apply load_window_geojson_eq|].
  split; [|split; [|split]].
  - intros k Hk. rewrite load_window_csv_eq. do 2 f_equal. unfold ordinals_without.
    apply concat_map_filter. intros i Hi.
    apply negb_false_iff, Nat.eqb_eq in Hi as ->.
    unfold shard_survivors. by destruct (fetch_rows _).
  - intros k Hk. rewrite load_window_geojson_eq. do 2 f_equal. unfold ordinals_without.
    apply concat_map_filter. intros i Hi.
    apply negb_false_iff, Nat.eqb_eq in Hi as ->.
    unfold chunk_survivors. by destruct (GeoJSONReader.fetchGeoJSON _ _).
  - intros Hall. rewrite load_window_csv_eq. do 2 f_equal.
    apply concat_map_nil. intros i. specialize (Hall i).
    unfold shard_survivors. by destruct (fetch_rows _).
  - intros Hall. rewrite load_window_geojson_eq. do 2 f_equal.
    apply concat_map_nil. intros i. specialize (Hall i).
    unfold chunk_survivors. by destruct (GeoJSONReader.fetchGeoJSON _ _).
Qed.

Lemma shard_fault_tolerance_witness :
  load_window_csv (fun _ => Rejected "404") example_box = Resolved {| features := [] |}.
Proof.
  apply (shard_fault_tolerance
           (fun _ => Rejected "404") (fun _ => Rejected "404") example_box).
  intros i. reflexivity.
Defined.

(** *** The bounding-box filter *)





(** *** Numeric defaults of the traffic dataset *)

(** C6, as the code has it.  A kept traffic row whose
    [all_motor_vehicles] does not parse as an integer is emitted with
    [all_motor_vehicles] equal to 0.  A [year] that does not parse is
    emitted as the number NaN: the property is present, it is neither
    zero nor undefined. *)
Theorem traffic_numeric_defaults (row : gmap string string) (f : GeoJSONFeature) :
  CSVReader.traffic_row row = Some f ->
  properties f !! "all_motor_vehicles"
    = Some (VNumber (JS.or_zero (JS.parseInt10 (JS.ToString (row !! "all_motor_vehicles")))))
  /\ properties f !! "year" = Some (VNumber (JS.parseInt10 (JS.ToString (row !! "year"))))
  /\ (JS.isNaN (JS.parseInt10 (JS.ToString (row !! "all_motor_vehicles"))) = true ->
      properties f !! "all_motor_vehicles" = Some (VNumber JS.pos_zero))
  /\ (JS.isNaN (JS.parseInt10 (JS.ToString (row !! "year"))) = true ->
      properties f !! "year" = Some (VNumber JS.NaN)).
Proof.
  unfold CSVReader.traffic_row. case_match; intros [= <-]; simpl.
  assert (H1 : forall v, object_literal [
      Prop_ "pointType" (VString "traffic");
      Prop_ "year" (VNumber (JS.parseInt10 (JS.ToString (row !! "year"))));
      Prop_ "all_motor_vehicles" v ] !! "all_motor_vehicles" = Some v).
  { intros v. by lookup_literal. }
  assert (H2 : forall v, object_literal [
      Prop_ "pointType" (VString "traffic");
      Prop_ "year" (VNumber (JS.parseInt10 (JS.ToString (row !! "year"))));
      Prop_ "all_motor_vehicles" v ] !! "year"
      = Some (VNumber (JS.parseInt10 (JS.ToString (row !! "year"))))).
  { intros v. by lookup_literal. }
  rewrite H1, H2. split; [reflexivity|]. split; [reflexivity|]. split.
  - intros Hnan. by rewrite (or_zero_NaN _ Hnan).
  - intros Hnan. by rewrite (isNaN_true _ Hnan).
Qed.

Lemma traffic_numeric_defaults_witness :
  exists f, CSVReader.traffic_row traffic_example = Some f
            /\ properties f !! "all_motor_vehicles" = Some (VNumber JS.pos_zero)
            /\ properties f !! "year" = Some (VNumber JS.NaN).
Proof.
  destruct (CSVReader.traffic_row traffic_example) as [f|] eqn:E.
  - exists f. split; [reflexivity|].
    pose proof (traffic_numeric_defaults traffic_example f E) as (_ & _ & Hv & Hy).
    split; [apply Hv|apply Hy]; reflexivity.
  - vm_compute in E. discriminate.
Defined.

(** A [year] that does not parse is not left out: the property holds
    the number NaN. *)
Lemma year_absent_rule_refuted : ~ year_absent_rule traffic_example.
Proof.
  unfold year_absent_rule. intros H.
  destruct (CSVReader.traffic_row traffic_example) as [f|] eqn:E.
  - destruct (H f eq_refl eq_refl) as [Hy|Hy];
      destruct (traffic_numeric_defaults traffic_example f E) as (_ & Hyear & _);
      rewrite Hyear in Hy; discriminate.
  - vm_compute in E. discriminate.
Qed.

(** *** Order of the emitted features *)

(** C7. A whole-file load returns the features of the rows it keeps in
    the order of the rows.  The windowed load returns the survivors of
    the shards 1 to 18 concatenated in ascending order of the ordinal,
    those of one shard in the order of its rows. *)
Theorem order_preservation
    (fetch_rows : string -> outcome (list (gmap string string))) (b : BoundingBox) :
  (forall d rows, fetch_rows (source_url d) = Resolved rows ->
     exists fc, whole_file_load d fetch_rows = Resolved fc
                /\ emitted_in_order (row_callback d) rows (features fc))
  /\ (exists shards,
        load_window_csv fetch_rows b = Resolved {| features := concat shards |}
        /\ Forall2 (fun i out =>
                      match fetch_rows (CSVReader.chunk_url i) with
                      | Resolved rows => emitted_in_order (visible_row b) rows out
                      | Rejected _ => out = []
                      end) (seq 1 18) shards).
Proof.
  split.
  - intros d rows Hrows. rewrite whole_file_load_eq, Hrows. simpl.
    eexists. split; [reflexivity|]. by apply emitted_in_order_omap.
  - exists (map (shard_survivors fetch_rows b) (seq 1 18)). split.
    + apply load_window_csv_eq.
    + generalize (seq 1 18). intros l.
      induction l as [|i l IH]; simpl; constructor; [|exact IH].
      unfold shard_survivors. destruct (fetch_rows _); [|reflexivity].
      by apply emitted_in_order_omap.
Qed.

Lemma order_preservation_witness :
  exists fc,
    whole_file_load traffic
      (fun _ => Resolved [unparsable_example; commercial_example; out_of_range_example])
    = Resolved fc
    /\ emitted_in_order (row_callback traffic)
         [unparsable_example; commercial_example; out_of_range_example] (features fc).
Proof.
  exact (proj1 (order_preservation
                  (fun _ => Resolved [unparsable_example; commercial_example;
                                      out_of_range_example])
                  example_box) traffic _ eq_refl).
Defined.

(** *** The discriminator of the emitted features *)

(** C8, as the code has it.  A feature of the commercial or the traffic
    loader carries the [pointType] of its dataset.  A feature of the
    competitor or of the whole-file population loader carries it unless
    the row has a column named [pointType], whose value then replaces
    it.  The windowed loader writes no [pointType]: its features carry
    the raw column of that name if the row has one, and none
    otherwise. *)
Theorem pointType_of_emitted_features
    (d : dataset) (b : BoundingBox) (row : gmap string string) :
  (forall f, row_callback d row = Some f ->
     properties f !! "pointType" =
       Some (VString match d with
                     | commercial | traffic => pointType d
                     | competitor | population => default (pointType d) (row !! "pointType")
                     end))
  /\ (forall f, visible_row b row = Some f ->
        properties f !! "pointType" = VString <$> row !! "pointType").
Proof.
  split.
  - intros f H. destruct d; simpl in *;
      unfold CSVReader.competitions_row, CSVReader.commercial_row,
             CSVReader.traffic_row, CSVReader.population_row in H;
      repeat case_match; try discriminate; injection H as <-; cbn [properties];
      lookup_literal; try reflexivity; by destruct (row !! "pointType").
  - intros f H. unfold visible_row, CSVReader.visible_row in H.
    case_match; try discriminate. injection H as <-. cbn [properties].
    lookup_literal; by destruct (row !! "pointType").
Qed.

Lemma pointType_of_emitted_features_witness :
  exists f, row_callback commercial commercial_example = Some f
            /\ carries_pointType commercial f.
Proof.
  destruct (row_callback commercial commercial_example) as [f|] eqn:E.
  - exists f. split; [reflexivity|].
    exact (proj1 (pointType_of_emitted_features commercial example_box
                    commercial_example) f E).
  - vm_compute in E. discriminate.
Defined.

(** Two features that do not carry the discriminator of their dataset:
    the one of the windowed loader has no [pointType], the one of the
    competitor loader has the value of the raw [pointType] column. *)
Lemma pointType_missing_or_overridden :
  (exists f, visible_row example_box population_example = Some f
             /\ properties f !! "pointType" = None
             /\ ~ carries_pointType population f)
  /\ (exists f, row_callback competitor override_example = Some f
                /\ properties f !! "pointType" = Some (VString "shop")
                /\ ~ carries_pointType competitor f).
Proof.
  split.
  - destruct (visible_row example_box population_example) as [f|] eqn:E;
      [|vm_compute in E; discriminate].
    exists f. split; [reflexivity|].
    pose proof (proj2 (pointType_of_emitted_features population example_box
                         population_example) f E) as H.
    change (population_example !! "pointType") with (@None string) in H.
    unfold carries_pointType. rewrite H. split; [reflexivity|discriminate].
  - destruct (row_callback competitor override_example) as [f|] eqn:E;
      [|vm_compute in E; discriminate].
    exists f. split; [reflexivity|].
    pose proof (proj1 (pointType_of_emitted_features competitor example_box
                         override_example) f E) as H.
    change (override_example !! "pointType") with (Some "shop") in H.
    unfold carries_pointType. rewrite H. split; [reflexivity|discriminate].
Qed.

(** *** The population count *)

(** C9, as the code has it.  The windowed loader emits
    [BUA_Population] as a number, the integer parsed from the raw
    column or 0.  The whole-file loader emits the raw string.  In both
    every other column but the coordinates passes through unchanged
    (in the whole-file loader [pointType] is set when the row has no
    such column). *)
Theorem BUA_Population_coercion (b : BoundingBox) (row : gmap string string) :
  (forall f, visible_row b row = Some f ->
     properties f !! "BUA_Population"
       = Some (VNumber (JS.or_zero (JS.parseInt10 (JS.ToString (row !! "BUA_Population")))))
     /\ (forall k, k <> "Latitude" -> k <> "Longitude" -> k <> "BUA_Population" ->
           properties f !! k = VString <$> row !! k))
  /\ (forall f, CSVReader.population_row row = Some f ->
        properties f !! "BUA_Population" = VString <$> row !! "BUA_Population"
        /\ (forall k, k <> "Latitude" -> k <> "Longitude" -> k <> "pointType" ->
              properties f !! k = VString <$> row !! k)).
Proof.
  split.
  - intros f H. unfold visible_row, CSVReader.visible_row in H.
    case_match; try discriminate. injection H as <-. cbn [properties]. split.
    + by lookup_literal.
    + intros k Hk1 Hk2 Hk3. lookup_literal; by destruct (row !! k).
  - intros f H. unfold CSVReader.population_row in H.
    case_match; try discriminate. injection H as <-. cbn [properties].
    assert (Hk : forall k, k <> "Latitude" -> k <> "Longitude" -> k <> "pointType" ->
              object_literal
                [Prop_ "pointType" (VString "population");
                 Spread (delete "Longitude" (delete "Latitude" row))] !! k
              = VString <$> row !! k).
    { intros k Hk1 Hk2 Hk3. lookup_literal; by destruct (row !! k). }
    split; [by apply Hk|exact Hk].
Qed.

Lemma BUA_Population_coercion_witness :
  (exists f, visible_row example_box population_example = Some f
             /\ properties f !! "BUA_Population" = Some (VNumber (num 1234)))
  /\ (exists f, CSVReader.population_row population_example = Some f
                /\ properties f !! "BUA_Population" = Some (VString "1234")).
Proof.
  split.
  - destruct (visible_row example_box population_example) as [f|] eqn:E;
      [|vm_compute in E; discriminate].
    exists f. split; [reflexivity|].
    exact (proj1 (proj1 (BUA_Population_coercion example_box population_example) f E)).
  - destruct (CSVReader.population_row population_example) as [f|] eqn:E;
      [|vm_compute in E; discriminate].
    exists f. split; [reflexivity|].
    exact (proj1 (proj2 (BUA_Population_coercion example_box population_example) f E)).
Defined.

(** *** Residual columns of the competitor dataset *)

(** C10. In a kept competitor row every raw column but [longitude] and
    [latitude] is emitted under its own name with its raw value; the
    spread comes last, so a raw column named [address], [query],
    [name], [phone], [site] or [pointType] replaces the normalized
    field.  With a raw [address] column the emitted [address] is that
    column and not [full_address], which stays among the properties;
    without one the emitted [address] is the raw [full_address]. *)
Theorem competitor_spread_override (row : gmap string string) (f : GeoJSONFeature) :
  CSVReader.competitions_row row = Some f ->
  (forall k v, k <> "longitude" -> k <> "latitude" ->
     row !! k = Some v -> properties f !! k = Some (VString v))
  /\ (forall k v, k ∈ ["address"; "query"; "name"; "phone"; "site"; "pointType"] ->
        row !! k = Some v -> properties f !! k = Some (VString v))
  /\ (forall a fa, row !! "address" = Some a -> row !! "full_address" = Some fa ->
        properties f !! "address" = Some (VString a)
        /\ properties f !! "full_address" = Some (VString fa))
  /\ (row !! "address" = None ->
        properties f !! "address" = Some (field row "full_address"))
  /\ (row !! "pointType" = None ->
        properties f !! "pointType" = Some (VString "competitor"))
  /\ properties f !! "longitude" = None /\ properties f !! "latitude" = None.
Proof.
  intros H. unfold CSVReader.competitions_row in H.
  repeat case_match; try discriminate. injection H as <-. cbn [properties].
  set (ms := [Prop_ "query" (field row "query"); Prop_ "name" (field row "name");
              Prop_ "address" (field row "full_address");
              Prop_ "phone" (field row "phone"); Prop_ "site" (field row "site");
              Prop_ "pointType" (VString "competitor")]).
  set (rest := delete "latitude" (delete "longitude" row)).
  change (object_literal _) with (object_literal (ms ++ [Spread rest])).
  assert (Hraw : forall k v, k <> "longitude" -> k <> "latitude" ->
     row !! k = Some v -> object_literal (ms ++ [Spread rest]) !! k = Some (VString v)).
  { intros k v Hk1 Hk2 Hk. rewrite lookup_object_literal_snoc, lookup_define_member.
    unfold rest. rewrite !lookup_delete_ne by congruence. by rewrite Hk. }
  assert (Hnone : forall k, rest !! k = None ->
     object_literal (ms ++ [Spread rest]) !! k = object_literal ms !! k).
  { intros k Hk. by rewrite lookup_object_literal_snoc, lookup_define_member, Hk. }
  split; [exact Hraw|]. split.
  { intros k v Hin. rewrite !elem_of_cons, elem_of_nil in Hin.
    apply Hraw; destruct Hin as [->|[->|[->|[->|[->|[->|[]]]]]]]; discriminate. }
  split.
  { intros a fa Ha Hfa. split; by apply Hraw. }
  split.
  { intros Ha. rewrite Hnone.
    - unfold ms. by lookup_literal.
    - unfold rest. by rewrite !lookup_delete_ne by done. }
  split.
  { intros Ha. rewrite Hnone.
    - unfold ms. by lookup_literal.
    - unfold rest. by rewrite !lookup_delete_ne by done. }
  split.
  - rewrite Hnone.
    + unfold ms. by lookup_literal.
    + unfold rest. by rewrite lookup_delete_ne, lookup_delete_eq by done.
  - rewrite Hnone.
    + unfold ms. by lookup_literal.
    + unfold rest. by rewrite lookup_delete_eq.
Qed.

Lemma competitor_spread_override_witness :
  exists f, CSVReader.competitions_row override_example = Some f
            /\ properties f !! "address" = Some (VString "1 High Street")
            /\ properties f !! "full_address" = Some (VString "1 High Street, Leeds").
Proof.
  destruct (CSVReader.competitions_row override_example) as [f|] eqn:E.
  - exists f. split; [reflexivity|].
    pose proof (competitor_spread_override override_example f E)
      as (_ & _ & H & _).
    apply H; reflexivity.
  - vm_compute in E. discriminate.
Defined.

(** ** Further properties of the loaders *)

(** *** Outcome of a load *)

(** X1.  [fetchGeoJSON] resolves exactly when the fetch resolves to a
    response that is [ok] and whose body decodes, and then to the
    decoded collection: a response that is not [ok] gives no
    collection, whatever its body, and is rejected with the status in
    the message. *)
Theorem fetchGeoJSON_resolves_iff
    (fetch : string -> outcome GeoJSONReader.Response) (url : string) :
  (forall c, GeoJSONReader.fetchGeoJSON fetch url = Resolved c
     <-> exists r, fetch url = Resolved r /\ GeoJSONReader.ok r = true
                   /\ GeoJSONReader.json r = Resolved c)
  /\ (forall r, fetch url = Resolved r -> GeoJSONReader.ok r = false ->
        rejected (GeoJSONReader.fetchGeoJSON fetch url) = true
        /\ forall t, GeoJSONReader.text r = Resolved t ->
             GeoJSONReader.fetchGeoJSON fetch url
             = Rejected ("Failed to fetch " ++ url ++ ": " ++ GeoJSONReader.status r
                         ++ " " ++ GeoJSONReader.statusText r ++ ". " ++ t))
  /\ (forall e, fetch url = Rejected e ->
        GeoJSONReader.fetchGeoJSON fetch url = Rejected e).
Proof.
  unfold GeoJSONReader.fetchGeoJSON, then_. split; [|split].
  - intros c. split.
    + destruct (fetch url) as [r|e]; [|discriminate].
      destruct (GeoJSONReader.ok r) eqn:Hok; simpl.
      * intros H. by exists r.
      * destruct (GeoJSONReader.text r); discriminate.
    + intros (r & -> & -> & Hjson). exact Hjson.
  - intros r -> ->. simpl. split.
    + by destruct (GeoJSONReader.text r).
    + by intros t ->.
  - by intros e ->.
Qed.



(** *** What the windowed loaders return *)

Lemma filter_concat_map {A B : Type} (p : B -> bool) (g : A -> list B) (l : list A) :
  List.filter p (concat (map g l)) = concat (map (fun i => List.filter p (g i)) l).
Proof.
  induction l as [|i l IH]; simpl; [reflexivity|].
  by rewrite List.filter_app, IH.
Qed.

Lemma filter_filter_implied {A : Type} (p q : A -> bool) (l : list A) :
  (forall x, p x = true -> q x = true) ->
  List.filter p (List.filter q l) = List.filter p l.
Proof.
  intros Hpq. induction l as [|x l IH]; simpl; [reflexivity|].
  destruct (q x) eqn:Hq; simpl.
  - by rewrite IH.
  - destruct (p x) eqn:Hp; [|exact IH]. apply Hpq in Hp. congruence.
Qed.

Lemma load_window_geojson_features fetch b fc :
  load_window_geojson fetch b = Resolved fc ->
  features fc = concat (map (chunk_survivors fetch b) (seq 1 totalChunks)).
Proof. rewrite load_window_geojson_eq. intros H. by injection H as <-. Qed.

(** X3.  Every feature that the GeoJSON windowed loader returns lies in the
    box and is a feature of one of the chunks 1 to 18. *)
Theorem load_window_geojson_sound
    (fetch : string -> outcome GeoJSONReader.Response) (b : BoundingBox)
    (fc : GeoJSONFeatureCollection) :
  load_window_geojson fetch b = Resolved fc ->
  Forall (fun f =>
            in_box b (fst (coordinates f)) (snd (coordinates f)) = true
            /\ exists i c, (1 <= i <= 18)%nat
                 /\ GeoJSONReader.fetchGeoJSON fetch (GeoJSONReader.chunk_url i) = Resolved c
                 /\ In f (features c))
         (features fc).
Proof.
  intros Hfc. rewrite (load_window_geojson_features _ _ _ Hfc).
  apply Forall_forall. intros f Hf.
  apply list_elem_of_In, in_concat in Hf as (fs & Hfs & Hf).
  apply in_map_iff in Hfs as (i & <- & Hi).
  apply in_seq in Hi. unfold chunk_survivors in Hf.
  destruct (GeoJSONReader.fetchGeoJSON fetch (GeoJSONReader.chunk_url i)) as [c|e] eqn:Hc;
    [|destruct Hf].
  apply filter_In in Hf as [Hin Hvis]. split.
  - unfold visible, GeoJSONReader.visible in Hvis. unfold in_box, JS.ge in *.
    by destruct (coordinates f).
  - exists i, c. unfold totalChunks in Hi. repeat split; try lia; done.
Qed.

Lemma load_window_geojson_sound_witness :
  exists fc, load_window_geojson example_fetch example_box = Resolved fc
             /\ Forall (fun f => in_box example_box (fst (coordinates f))
                                   (snd (coordinates f)) = true) (features fc).
Proof.
  destruct (load_window_geojson example_fetch example_box) as [fc|e] eqn:E.
  - exists fc. split; [reflexivity|].
    eapply Forall_impl; [exact (load_window_geojson_sound example_fetch example_box fc E)|].
    intros f [H _]. exact H.
  - vm_compute in E. discriminate.
Defined.

Lemma box_within_visible (b b' : BoundingBox) (f : GeoJSONFeature) :
  box_within b b' = true -> visible b f = true -> visible b' f = true.
Proof.
  unfold box_within, visible, GeoJSONReader.visible, JS.ge.
  destruct (coordinates f) as [lng lat]. rewrite !andb_true_iff.
  intros [[[H1 H2] H3] H4] [[[G1 G2] G3] G4].
  eauto 10 using le_trans.
Qed.

(** X4.  Loading a box gives the features of any larger box that lie in
    the smaller one: panning or zooming inside a loaded window needs
    nothing the larger load did not return. *)
Theorem load_window_geojson_narrow
    (fetch : string -> outcome GeoJSONReader.Response) (b b' : BoundingBox)
    (fc fc' : GeoJSONFeatureCollection) :
  box_within b b' = true ->
  load_window_geojson fetch b = Resolved fc ->
  load_window_geojson fetch b' = Resolved fc' ->
  features fc = List.filter (visible b) (features fc').
Proof.
  intros Hsub Hfc Hfc'.
  rewrite (load_window_geojson_features _ _ _ Hfc),
          (load_window_geojson_features _ _ _ Hfc'), filter_concat_map.
  f_equal. apply map_ext. intros i. unfold chunk_survivors.
  destruct (GeoJSONReader.fetchGeoJSON fetch (GeoJSONReader.chunk_url i)); [|reflexivity].
  rewrite filter_filter_implied; [reflexivity|].
  intros f. by apply box_within_visible.
Qed.

Lemma load_window_geojson_narrow_witness :
  exists fc fc',
    load_window_geojson example_fetch example_box = Resolved fc
    /\ load_window_geojson example_fetch wide_box = Resolved fc'
    /\ features fc = List.filter (visible example_box) (features fc').
Proof.
  destruct (load_window_geojson example_fetch example_box) as [fc|e] eqn:E;
    [|vm_compute in E; discriminate].
  destruct (load_window_geojson example_fetch wide_box) as [fc'|e] eqn:E';
    [|vm_compute in E'; discriminate].
  exists fc, fc'. split; [reflexivity|]. split; [reflexivity|].
  exact (load_window_geojson_narrow example_fetch example_box wide_box fc fc'
           eq_refl E E').
Defined.

(** X5.  The CSV windowed loader, for a box whose bounds are numbers,
    returns only features that lie in the box. *)
Theorem load_window_csv_sound
    (fetch_rows : string -> outcome (list (gmap string string))) (b : BoundingBox)
    (fc : GeoJSONFeatureCollection) :
  numeric_box b ->
  load_window_csv fetch_rows b = Resolved fc ->
  Forall (fun f => in_box b (fst (coordinates f)) (snd (coordinates f)) = true)
         (features fc).
Proof.
  intros (Hn1 & Hn2 & Hn3 & Hn4) Hfc. rewrite (load_window_csv_features _ _ _ Hfc).
  apply Forall_concat_map. intros i. unfold shard_survivors.
  destruct (fetch_rows _) as [rows|e]; [|constructor].
  apply omap_Forall. intros row f Hf.
  apply visible_row_Some in Hf. simpl in Hf.
  destruct Hf as (Hl & Ha & H1 & H2 & H3 & H4 & ->). simpl.
  unfold JS.gt in *. apply lt_false_ge in H1, H2, H3, H4; try done.
  unfold in_box. unfold JS.ge, JS.le in *. by rewrite H1, H2, H3, H4.
Qed.

Lemma load_window_csv_sound_witness :
  exists fc, load_window_csv example_fetch_rows example_box = Resolved fc
             /\ Forall (fun f => in_box example_box (fst (coordinates f))
                                   (snd (coordinates f)) = true) (features fc).
Proof.
  destruct (load_window_csv example_fetch_rows example_box) as [fc|e] eqn:E.
  - exists fc. split; [reflexivity|].
    apply (load_window_csv_sound example_fetch_rows example_box fc); [|exact E].
    repeat split; reflexivity.
  - vm_compute in E. discriminate.
Defined.

(** *** Shape of the emitted properties *)

(** X6.  A commercial feature has exactly the thirteen columns of the field
    map and [pointType] as property names, whatever other columns the
    row has; each holds the value of its column, [undefined] when the
    row has no such column. *)
Theorem commercial_properties_schema (row : gmap string string) (f : GeoJSONFeature) :
  CSVReader.commercial_row row = Some f ->
  dom (properties f) = (list_to_set (commercial_columns ++ ["pointType"])%list : gset string)
  /\ (forall k, k ∈ commercial_columns -> properties f !! k = Some (field row k))
  /\ properties f !! "pointType" = Some (VString "commercial").
Proof.
  unfold CSVReader.commercial_row. case_match; intros [= <-]; cbn [properties].
  split; [|split].
  - unfold object_literal; simpl. rewrite !dom_insert_L, dom_empty_L. set_solver.
  - intros k Hk. unfold commercial_columns in Hk.
    rewrite !elem_of_cons, elem_of_nil in Hk.
    destruct Hk as [->|[->|[->|[->|[->|[->|[->|[->|[->|[->|[->|[->|[->|[]]]]]]]]]]]]]];
      by lookup_literal.
  - by lookup_literal.
Qed.

Lemma commercial_properties_schema_witness :
  exists f, CSVReader.commercial_row commercial_example = Some f
            /\ properties f !! "type" = Some (VString "Office")
            /\ properties f !! "outcode" = Some VUndefined
            /\ properties f !! "longitude" = None.
Proof.
  destruct (CSVReader.commercial_row commercial_example) as [f|] eqn:E.
  - exists f. split; [reflexivity|].
    pose proof (commercial_properties_schema commercial_example f E) as (Hdom & Hk & _).
    split; [|split].
    + rewrite Hk; [reflexivity|]. unfold commercial_columns.
      rewrite !elem_of_cons. tauto.
    + rewrite Hk; [reflexivity|]. unfold commercial_columns.
      rewrite !elem_of_cons. tauto.
    + apply not_elem_of_dom. rewrite Hdom, elem_of_list_to_set.
      unfold commercial_columns. simpl. rewrite !elem_of_cons, elem_of_nil.
      intros H. decompose [or] H; (discriminate || contradiction).
  - vm_compute in E. discriminate.
Defined.

(** X7.  A traffic feature has exactly the properties [pointType], [year]
    and [all_motor_vehicles]: no raw column passes through, and the
    discriminator cannot be replaced by one. *)
Theorem traffic_properties_schema (row : gmap string string) (f : GeoJSONFeature) :
  CSVReader.traffic_row row = Some f ->
  dom (properties f)
    = (list_to_set ["pointType"; "year"; "all_motor_vehicles"] : gset string)
  /\ properties f !! "pointType" = Some (VString "traffic")
  /\ (forall k, k <> "pointType" -> k <> "year" -> k <> "all_motor_vehicles" ->
        properties f !! k = None).
Proof.
  unfold CSVReader.traffic_row. case_match; intros [= <-]; cbn [properties].
  split; [|split].
  - unfold object_literal; simpl. rewrite !dom_insert_L, dom_empty_L. set_solver.
  - by lookup_literal.
  - intros k H1 H2 H3. by lookup_literal.
Qed.

Lemma traffic_properties_schema_witness :
  exists f, CSVReader.traffic_row traffic_example = Some f
            /\ properties f !! "longitude" = None.
Proof.
  destruct (CSVReader.traffic_row traffic_example) as [f|] eqn:E.
  - exists f. split; [reflexivity|].
    by apply (traffic_properties_schema traffic_example f E).
  - vm_compute in E. discriminate.
Defined.

Lemma or_zero_not_NaN (x : JS.number) : JS.isNaN (JS.or_zero x) = false.
Proof. by destruct x. Qed.

(** X8.  The two counts are always numbers: [all_motor_vehicles] of a
    traffic feature and [BUA_Population] of a feature of the windowed
    loader are never NaN and never missing, whatever the raw value. *)
Theorem counts_are_numbers (row : gmap string string) :
  (forall f, CSVReader.traffic_row row = Some f ->
     exists n, properties f !! "all_motor_vehicles" = Some (VNumber n)
               /\ JS.isNaN n = false)
  /\ (forall b f, visible_row b row = Some f ->
        exists n, properties f !! "BUA_Population" = Some (VNumber n)
                  /\ JS.isNaN n = false).
Proof.
  split.
  - intros f. unfold CSVReader.traffic_row. case_match; intros [= <-]; cbn [properties].
    eexists. split; [by lookup_literal|apply or_zero_not_NaN].
  - intros b f. unfold visible_row, CSVReader.visible_row.
    case_match; intros [= <-]; cbn [properties].
    eexists. split; [by lookup_literal|apply or_zero_not_NaN].
Qed.

(** *** Shards are independent *)

Lemma string_app_length (s t : string) :
  String.length (s ++ t) = (String.length s + String.length t)%nat.
Proof. induction s as [|a s IH]; simpl; [reflexivity|]. by rewrite <- IH. Qed.

Lemma string_app_inj_r (s s' t : string) : s ++ t = s' ++ t -> s = s'.
Proof.
  revert s'. induction s as [|a s IH]; intros [|a' s'] H; try reflexivity.
  - apply (f_equal String.length) in H.
    rewrite !string_app_length in H. simpl in H. lia.
  - apply (f_equal String.length) in H.
    rewrite !string_app_length in H. simpl in H. lia.
  - change (String a (s ++ t) = String a' (s' ++ t)) in H.
    injection H as -> H. f_equal. by apply IH.
Qed.

(** Distinct ordinals have distinct URLs. *)
Lemma chunk_url_inj (i j : nat) : CSVReader.chunk_url i = CSVReader.chunk_url j -> i = j.
Proof.
  unfold CSVReader.chunk_url, ordinal_to_string. intros H.
  apply (inj (String.app _)), string_app_inj_r in H.
  by apply (inj pretty) in H.
Qed.

(** X9.  Making the shard [k] unreadable removes the survivors of that
    shard from the result of the windowed load and changes nothing
    else: the other shards are read from other URLs. *)
Theorem unreadable_shard_removes_only_its_rows
    (fetch_rows : string -> outcome (list (gmap string string)))
    (b : BoundingBox) (k : nat) :
  load_window_csv (without_shard fetch_rows k) b
  = Resolved {| features :=
      concat (map (shard_survivors fetch_rows b) (ordinals_without k)) |}.
Proof.
  rewrite load_window_csv_eq. do 2 f_equal. unfold ordinals_without.
  rewrite (concat_map_filter _ (fun i => negb (Nat.eqb i k))).
  - f_equal. apply map_ext_in. intros i Hi.
    apply filter_In in Hi as [_ Hi]. apply negb_true_iff, Nat.eqb_neq in Hi.
    unfold shard_survivors, without_shard.
    destruct (String.eqb_spec (CSVReader.chunk_url i) (CSVReader.chunk_url k)) as [E|E];
      [|reflexivity].
    by apply chunk_url_inj in E.
  - intros i Hi. apply negb_false_iff, Nat.eqb_eq in Hi as ->.
    unfold shard_survivors, without_shard. by rewrite String.eqb_refl.
Qed.

(** ** The preprocessing script *)

Section Script.

Implicit Types (row : gmap string string) (data : list (gmap string string)).

(** [filter], [map] and [filter(Boolean)] in one pass over the rows. *)
Lemma filter_map_Boolean (p : gmap string string -> bool)
    (m : gmap string string -> option GeoJSONFeature) data :
  Preprocess.filter_Boolean (map m (List.filter p data))
  = omap (fun row => if p row then m row else None) data.
Proof.
  unfold Preprocess.filter_Boolean.
  induction data as [|row data IH]; csimpl; [reflexivity|].
  destruct (p row); csimpl; [|exact IH].
  rewrite IH. by destruct (m row).
Qed.

(** A field that parses to a number is truthy. *)
Lemma parsed_is_truthy (v : option string) :
  JS.isNaN (JS.parseFloat (JS.ToString v)) = false -> Preprocess.truthy v = true.
Proof.
  destruct v as [s|]; simpl; [|discriminate].
  destruct (String.eqb_spec s "") as [->|]; [discriminate|reflexivity].
Qed.

Lemma omap_ext_list {A B : Type} (g h : A -> option B) (l : list A) :
  (forall x, g x = h x) -> omap g l = omap h l.
Proof.
  intros Hgh. induction l as [|x l IH]; csimpl; [reflexivity|].
  by rewrite Hgh, IH.
Qed.

Lemma map_omap {A B C : Type} (g : A -> option B) (h : B -> C) (l : list A) :
  map h (omap g l) = omap (fun x => option_map h (g x)) l.
Proof.
  induction l as [|x l IH]; csimpl; [reflexivity|].
  destruct (g x); csimpl; by rewrite IH.
Qed.


(** X11.  For each dataset the script and the loader of the CSV file keep
    the same rows and give them the same coordinates, in the same
    order: the commercial pair is [latitude, longitude] in both. *)
Theorem script_and_loader_same_points (d : dataset) data :
  map coordinates (features (script_collection d data))
  = map coordinates (omap (row_callback d) data).
Proof.
  rewrite !map_omap.
  destruct d; simpl;
    unfold Preprocess.processCompetitionData, Preprocess.processCommercialLandData,
           Preprocess.processTrafficData, Preprocess.processPopulationChunk;
    cbn [features]; rewrite filter_map_Boolean, map_omap;
    apply omap_ext_list; intros row.
  - unfold Preprocess.competition_filter, Preprocess.competition_map,
           CSVReader.competitions_row.
    destruct (JS.isNaN (JS.parseFloat (JS.ToString (row !! "longitude")))) eqn:Hl.
    { simpl. by repeat case_match. }
    destruct (JS.isNaN (JS.parseFloat (JS.ToString (row !! "latitude")))) eqn:Ha.
    { simpl. by repeat case_match. }
    rewrite (parsed_is_truthy _ Hl), (parsed_is_truthy _ Ha). simpl.
    assert (row !! "longitude" <> Some "") as Hl' by (intros E; by rewrite E in Hl).
    assert (row !! "latitude" <> Some "") as Ha' by (intros E; by rewrite E in Ha).
    rewrite (bool_decide_eq_false_2 _ Hl'), (bool_decide_eq_false_2 _ Ha'). simpl.
    by destruct (_ || _).
  - unfold Preprocess.commercial_filter, Preprocess.commercial_map, CSVReader.commercial_row.
    destruct (JS.isNaN (JS.parseFloat (JS.ToString (row !! "longitude")))) eqn:Hl.
    { rewrite orb_true_r. simpl. by destruct (_ && _). }
    destruct (JS.isNaN (JS.parseFloat (JS.ToString (row !! "latitude")))) eqn:Ha.
    { simpl. by destruct (_ && _). }
    by rewrite (parsed_is_truthy _ Hl), (parsed_is_truthy _ Ha).
  - unfold Preprocess.traffic_filter, Preprocess.traffic_map, CSVReader.traffic_row.
    destruct (JS.isNaN (JS.parseFloat (JS.ToString (row !! "longitude")))) eqn:Hl.
    { simpl. by destruct (_ && _). }
    destruct (JS.isNaN (JS.parseFloat (JS.ToString (row !! "latitude")))) eqn:Ha.
    { simpl. by destruct (_ && _). }
    by rewrite (parsed_is_truthy _ Hl), (parsed_is_truthy _ Ha).
  - unfold Preprocess.population_filter, Preprocess.population_map, CSVReader.population_row.
    destruct (JS.isNaN (JS.parseFloat (JS.ToString (row !! "Longitude")))) eqn:Hl.
    { simpl. by destruct (_ && _). }
    destruct (JS.isNaN (JS.parseFloat (JS.ToString (row !! "Latitude")))) eqn:Ha.
    { simpl. by destruct (_ && _). }
    by rewrite (parsed_is_truthy _ Hl), (parsed_is_truthy _ Ha).
Qed.

(** X12.  In the files written by the script the discriminator is set after
    the spread of the row, so a raw column named [pointType] cannot
    replace it (in the loader of the competitor CSV it can); every
    other column passes through, in the commercial file the two
    coordinate columns too. *)
Theorem script_discriminator_wins row :
  (forall f, Preprocess.competition_map row = Some f ->
     properties f !! "pointType" = Some (VString "competitor")
     /\ (forall k, k <> "longitude" -> k <> "latitude" -> k <> "pointType" ->
           properties f !! k = VString <$> row !! k)
     /\ properties f !! "longitude" = None /\ properties f !! "latitude" = None)
  /\ (forall f, Preprocess.commercial_map row = Some f ->
        properties f !! "pointType" = Some (VString "commercial")
        /\ (forall k, k <> "pointType" -> properties f !! k = VString <$> row !! k)).
Proof.
  split.
  - intros f. unfold Preprocess.competition_map. case_match; intros [= <-]; cbn [properties].
    split; [by lookup_literal|]. split; [|split].
    + intros k H1 H2 H3. lookup_literal; by destruct (row !! k).
    + lookup_literal; by rewrite ?lookup_delete_ne, lookup_delete_eq by done.
    + lookup_literal; by rewrite ?lookup_delete_ne, lookup_delete_eq by done.
  - intros f. unfold Preprocess.commercial_map. case_match; intros [= <-]; cbn [properties].
    split; [by lookup_literal|].
    intros k H1. lookup_literal; by destruct (row !! k).
Qed.

Lemma filter_omap {A B : Type} (p : B -> bool) (g : A -> option B) (l : list A) :
  List.filter p (omap g l)
  = omap (fun x => match g x with
                   | Some y => if p y then Some y else None
                   | None => None
                   end) l.
Proof.
  induction l as [|x l IH]; csimpl; [reflexivity|].
  destruct (g x) as [y|]; csimpl; [|exact IH].
  destruct (p y); by rewrite IH.
Qed.

Lemma le_negb_lt (x y : JS.number) :
  JS.isNaN x = false -> JS.isNaN y = false -> JS.le x y = negb (JS.lt y x).
Proof.
  intros Hx Hy. destruct (JS.lt y x) eqn:H; simpl.
  - by apply lt_not_le.
  - by apply (lt_false_ge y x) in H.
Qed.

(** X13.  The filter of the GeoJSON loader, applied to the features that the
    script builds from the rows of a chunk, gives the features that the
    CSV loader builds from the same rows, when the four bounds of the
    box are numbers. *)
Theorem script_chunk_then_filter_is_csv_window (b : BoundingBox) data :
  numeric_box b ->
  List.filter (visible b) (features (Preprocess.processPopulationChunk data))
  = omap (visible_row b) data.
Proof.
  intros (Hn1 & Hn2 & Hn3 & Hn4).
  unfold Preprocess.processPopulationChunk. cbn [features].
  rewrite filter_map_Boolean, filter_omap. apply omap_ext_list. intros row.
  unfold Preprocess.population_filter, Preprocess.population_map,
         visible_row, CSVReader.visible_row.
  set (lng := JS.parseFloat (JS.ToString (row !! "Longitude"))).
  set (lat := JS.parseFloat (JS.ToString (row !! "Latitude"))).
  destruct (JS.isNaN lng) eqn:Hl.
  { rewrite orb_true_r. simpl. by destruct (_ && _). }
  destruct (JS.isNaN lat) eqn:Ha.
  { simpl. by destruct (_ && _). }
  rewrite (parsed_is_truthy _ Hl), (parsed_is_truthy _ Ha). simpl.
  assert (Hprops :
    object_literal
      [Spread (delete "Longitude" (delete "Latitude" row));
       Prop_ "BUA_Population"
         (VNumber (JS.or_zero (JS.parseInt10 (JS.ToString (row !! "BUA_Population")))))]
    = object_literal
      [Spread (delete "BUA_Population" (delete "Longitude" (delete "Latitude" row)));
       Prop_ "BUA_Population"
         (VNumber (JS.or_zero (JS.parseInt10 (JS.ToString (row !! "BUA_Population")))))]).
  { apply map_eq. intros k. unfold object_literal. cbn [foldl].
    rewrite !lookup_define_member. case_decide; [reflexivity|].
    by rewrite (lookup_delete_ne _ "BUA_Population"). }
  rewrite Hprops.
  unfold visible, GeoJSONReader.visible, JS.gt, JS.ge. cbn [coordinates].
  rewrite !le_negb_lt by done.
  unfold JS.lt.
  by destruct (SFltb lng (minLng b)), (SFltb (maxLng b) lng),
              (SFltb lat (minLat b)), (SFltb (maxLat b) lat).
Qed.

Lemma script_chunk_then_filter_is_csv_window_witness :
  List.filter (visible example_box)
    (features (Preprocess.processPopulationChunk
                 [population_example; unparsable_example; far_example]))
  = omap (visible_row example_box)
      [population_example; unparsable_example; far_example].
Proof.
  apply (script_chunk_then_filter_is_csv_window example_box).
  repeat split; reflexivity.
Defined.

End Script.

(** ** The chunking script *)

Section Chunking.

Variable n : nat.
Hypothesis n_positive : (0 < n)%nat.

Lemma mod_zero_full (c s : nat) :
  (1 <= s <= n)%nat -> ((c * n + s) mod n = 0)%nat -> s = n.
Proof.
  intros Hs Hmod. destruct (decide (s = n)) as [|Hne]; [done|].
  rewrite Nat.add_comm, Nat.Div0.mod_add, Nat.mod_small in Hmod by lia. lia.
Qed.

Lemma mod_nonzero_room (c s : nat) :
  (s <= n)%nat -> ((c * n + s) mod n <> 0)%nat -> (s < n)%nat.
Proof.
  intros Hs Hmod. destruct (decide (s = n)) as [->|Hne]; [|lia].
  exfalso. apply Hmod.
  replace (c * n + n)%nat with ((c + 1) * n)%nat by lia.
  apply Nat.Div0.mod_mul.
Qed.

Lemma split_step (h : string) (st : SplitCsv.state) (d : list string) (line : string) :
  split_invariant n h st d ->
  exists st', SplitCsv.step n st line = Some st'
              /\ split_invariant n h st' (d ++ [line])%list.
Proof.
  intros [Hh Ht Hrow Hi Hrows Hhead Hpaths Hclosed Hcount Hstream].
  destruct st as [hs str i r cl]. unfold written, SplitCsv.end_stream in *.
  cbn [SplitCsv.headers SplitCsv.stream SplitCsv.i SplitCsv.row SplitCsv.closed] in *.
  subst hs. unfold SplitCsv.step.
  cbn [SplitCsv.headers SplitCsv.stream SplitCsv.i SplitCsv.row SplitCsv.closed
       SplitCsv.no_headers].
  destruct (String.eqb_spec h "") as [->|_]; [done|].
  destruct (Nat.eqb_spec (r mod n) 0) as [Hmod|Hmod].
  - cbn [SplitCsv.headers SplitCsv.stream SplitCsv.i SplitCsv.row SplitCsv.closed
         SplitCsv.end_stream JS.ToString].
    eexists. split; [reflexivity|].
    set (files := match str with Some f => (cl ++ [f])%list | None => cl end) in *.
    assert (Hfull : Forall (fun f => length (SplitCsv.rows_of f) = n) files).
    { unfold files. destruct str as [f|]; [|exact Hclosed].
      apply Forall_app. split; [exact Hclosed|]. constructor; [|constructor].
      rewrite Hcount in Hmod. by apply (mod_zero_full (length cl)). }
    assert (Hlen : r = (length files * n)%nat).
    { unfold files. destruct str as [f|].
      - rewrite length_app. simpl. rewrite Hcount.
        assert (length (SplitCsv.rows_of f) = n); [|nia].
        rewrite Hcount in Hmod. by apply (mod_zero_full (length cl)).
      - simpl in Hcount. lia. }
    split; unfold SplitCsv.end_stream, written;
      cbn [SplitCsv.headers SplitCsv.stream SplitCsv.i SplitCsv.row SplitCsv.closed
           SplitCsv.rows_of snd];
      fold files; unfold SplitCsv.file in *.
    + reflexivity.
    + exact Ht.
    + rewrite length_app. simpl. lia.
    + rewrite length_app. simpl. lia.
    + rewrite map_app, concat_app, Hrows. simpl. by rewrite ?app_nil_r.
    + apply Forall_app. split; [exact Hhead|]. by repeat constructor.
    + rewrite length_app, map_app, Hpaths. simpl length.
      rewrite Nat.add_1_r, seq_S, map_app. simpl. by rewrite Hi.
    + exact Hfull.
    + simpl. lia.
    + simpl. lia.
  - destruct str as [[p lines]|].
    2:{ exfalso. apply Hmod. rewrite Hcount. simpl.
        rewrite Nat.add_0_r. apply Nat.Div0.mod_mul. }
    cbn [SplitCsv.headers SplitCsv.stream SplitCsv.i SplitCsv.row SplitCsv.closed].
    eexists. split; [reflexivity|].
    assert (Hlines : exists rows, lines = h :: rows).
    { apply Forall_app in Hhead as [_ Hhead]. apply Forall_inv in Hhead.
      simpl in Hhead. destruct lines as [|l rows]; [discriminate|].
      injection Hhead as ->. by exists rows. }
    destruct Hlines as [rows ->].
    unfold SplitCsv.rows_of in *. simpl in Hstream, Hcount.
    assert (Hroom : (length rows < n)%nat).
    { rewrite Hcount in Hmod. apply (mod_nonzero_room (length cl)); [lia|done]. }
    split; cbn [SplitCsv.headers SplitCsv.stream SplitCsv.i SplitCsv.row SplitCsv.closed
                SplitCsv.end_stream written SplitCsv.rows_of snd].
    + reflexivity.
    + exact Ht.
    + rewrite length_app. simpl. lia.
    + rewrite Hi, !length_app. reflexivity.
    + rewrite map_app, concat_app in *. simpl in *. rewrite !app_nil_r in *.
      rewrite <- Hrows. by rewrite <- app_assoc.
    + apply Forall_app in Hhead as [Hhead _].
      apply Forall_app. split; [exact Hhead|]. by repeat constructor.
    + rewrite ?length_app, ?map_app in *. exact Hpaths.
    + exact Hclosed.
    + unfold SplitCsv.rows_of. simpl. rewrite length_app. simpl. lia.
    + unfold SplitCsv.rows_of. simpl. rewrite length_app. simpl. lia.
Qed.

Lemma split_loop (h : string) (lines : list string) :
  forall (st : SplitCsv.state) (d : list string),
  split_invariant n h st d ->
  exists st', SplitCsv.loop n st lines = Some st'
              /\ split_invariant n h st' (d ++ lines)%list.
Proof.
  induction lines as [|line lines IH]; intros st d Hinv; simpl.
  - exists st. by rewrite app_nil_r.
  - destruct (split_step h st d line Hinv) as (st1 & -> & Hinv1).
    destruct (IH st1 _ Hinv1) as (st' & Hloop & Hinv').
    exists st'. split; [exact Hloop|]. by rewrite <- app_assoc in Hinv'.
Qed.

(** Before the header: empty lines are passed over, the first line
    that is not empty becomes the header. *)
Lemma split_before_header (hv : option string) (lines : list string) :
  SplitCsv.no_headers hv = true ->
  match SplitCsv.from_header lines with
  | [] =>
      exists st,
        SplitCsv.loop n {| SplitCsv.headers := hv; SplitCsv.stream := None;
                           SplitCsv.i := 0; SplitCsv.row := 0; SplitCsv.closed := [] |}
                      lines = Some st
        /\ SplitCsv.end_stream st = []
  | h :: data =>
      h <> ""
      /\ SplitCsv.loop n {| SplitCsv.headers := hv; SplitCsv.stream := None;
                            SplitCsv.i := 0; SplitCsv.row := 0; SplitCsv.closed := [] |}
                       lines
         = SplitCsv.loop n {| SplitCsv.headers := Some h; SplitCsv.stream := None;
                              SplitCsv.i := 0; SplitCsv.row := 0; SplitCsv.closed := [] |}
                         data
  end.
Proof.
  revert hv. induction lines as [|line lines IH]; intros hv Hhv; simpl.
  - eexists. split; reflexivity.
  - assert (Hstep : SplitCsv.step n
        {| SplitCsv.headers := hv; SplitCsv.stream := None;
           SplitCsv.i := 0; SplitCsv.row := 0; SplitCsv.closed := [] |} line
      = Some {| SplitCsv.headers := Some line; SplitCsv.stream := None;
                SplitCsv.i := 0; SplitCsv.row := 0; SplitCsv.closed := [] |}).
    { unfold SplitCsv.step. cbn [SplitCsv.headers]. by rewrite Hhv. }
    rewrite Hstep. clear Hstep.
    destruct (String.eqb_spec line "") as [->|Hne].
    + cbn iota. apply (IH (Some "")). reflexivity.
    + cbn iota. split; [exact Hne|reflexivity].
Qed.

Lemma split_invariant_initial (h : string) :
  h <> "" ->
  split_invariant n h {| SplitCsv.headers := Some h; SplitCsv.stream := None;
                         SplitCsv.i := 0; SplitCsv.row := 0; SplitCsv.closed := [] |} [].
Proof. intros Hh. split; try done; simpl; constructor. Qed.

(** The files written with [n] rows per file. *)
Lemma split_with_spec (lines : list string) :
  exists files,
    SplitCsv.split_with n lines = Some files
    /\ concat (map SplitCsv.rows_of files) = tail (SplitCsv.from_header lines)
    /\ Forall (fun f => head (snd f) = head (SplitCsv.from_header lines)) files
    /\ map fst files = map SplitCsv.chunk_path (seq 1 (length files))
    /\ (forall k f, files !! k = Some f ->
          (1 <= length (SplitCsv.rows_of f) <= n)%nat
          /\ (S k < length files -> length (SplitCsv.rows_of f) = n)%nat)
    /\ (length (tail (SplitCsv.from_header lines)) <= length files * n)%nat
    /\ (length files * n < length (tail (SplitCsv.from_header lines)) + n)%nat.
Proof.
  unfold SplitCsv.split_with, SplitCsv.initial.
  pose proof (split_before_header None lines eq_refl) as Hpre.
  destruct (SplitCsv.from_header lines) as [|h data].
  - destruct Hpre as (st & -> & Hst). exists []. rewrite Hst. simpl.
    repeat split; try done; try lia.
  - destruct Hpre as [Hh ->].
    destruct (split_loop h data _ [] (split_invariant_initial h Hh))
      as (st & -> & [Hhs Ht Hrow Hi Hrows Hhead Hpaths Hclosed Hcount Hstream]).
    simpl in Hrows, Hrow. exists (SplitCsv.end_stream st). simpl tail. simpl head.
    split; [reflexivity|]. split; [exact Hrows|]. split; [exact Hhead|].
    split; [exact Hpaths|].
    unfold SplitCsv.end_stream, written in *.
    destruct (SplitCsv.stream st) as [f|].
    + rewrite length_app. simpl length. split; [|split; nia].
      intros k g Hk. apply lookup_app_Some in Hk as [Hk|[Hlen Hk]].
      * pose proof (Forall_lookup_1 _ _ _ _ Hclosed Hk) as Hg. simpl in Hg.
        rewrite Hg. split; [lia|done].
      * apply list_lookup_singleton_Some in Hk as [Hk <-].
        split; [exact Hstream|]. intros Hlt. lia.
    + split; [|split; nia].
      intros k g Hk. pose proof (Forall_lookup_1 _ _ _ _ Hclosed Hk) as Hg. simpl in Hg.
      rewrite Hg. split; [lia|done].
Qed.

End Chunking.

Lemma map_lookup_Some {A B : Type} (g : A -> B) (l : list A) (k : nat) (x : A) :
  l !! k = Some x -> map g l !! k = Some (g x).
Proof.
  revert k. induction l as [|y l IH]; intros [|k] H; try discriminate; simpl in *.
  - by injection H as ->.
  - by apply IH.
Qed.

Lemma map_seq_lookup {B : Type} (g : nat -> B) (start len k : nat) (y : B) :
  map g (seq start len) !! k = Some y -> y = g (start + k)%nat.
Proof.
  revert start k. induction len as [|len IH]; intros start [|k] H; try discriminate;
    simpl in *.
  - injection H as <-. f_equal. lia.
  - apply IH in H as ->. f_equal. lia.
Qed.

Lemma chunk_file_name (files : list SplitCsv.file) (k : nat) (f : SplitCsv.file) :
  map fst files = map SplitCsv.chunk_path (seq 1 (length files)) ->
  files !! k = Some f -> fst f = SplitCsv.chunk_path (S k).
Proof.
  intros Hpaths Hk. apply (map_lookup_Some fst) in Hk.
  rewrite Hpaths in Hk. by apply map_seq_lookup in Hk.
Qed.

Lemma ROWS_PER_FILE_positive : (0 < SplitCsv.ROWS_PER_FILE)%nat.
Proof. unfold SplitCsv.ROWS_PER_FILE. lia. Qed.

(** X14.  [splitCsv] never writes to an undefined stream.  Empty lines
    before the header are passed over; the first line that is not
    empty is the header, and every chunk begins with it.  The data
    rows of the chunks, in the order of the chunks, are the lines that
    follow the header, none lost, repeated or reordered. *)
Theorem splitCsv_round_trip (lines : list string) :
  exists files,
    SplitCsv.splitCsv lines = Some files
    /\ concat (map SplitCsv.rows_of files) = tail (SplitCsv.from_header lines)
    /\ Forall (fun f => head (snd f) = head (SplitCsv.from_header lines)) files
    /\ (tail (SplitCsv.from_header lines) = [] -> files = []).
Proof.
  destruct (split_with_spec _ ROWS_PER_FILE_positive lines)
    as (files & Hsplit & Hrows & Hhead & _ & _ & _ & Hcount).
  exists files. split; [exact Hsplit|]. split; [exact Hrows|]. split; [exact Hhead|].
  intros Hnil. rewrite Hnil in Hcount. cbn [length] in Hcount.
  destruct files as [|f files]; [reflexivity|]. cbn [length] in Hcount. nia.
Qed.

(** X15.  The chunks are named [chunk_1.csv], [chunk_2.csv], ... in the order
    of their creation; each holds at least one and at most
    [ROWS_PER_FILE] data rows, and every chunk but the last exactly
    [ROWS_PER_FILE]. *)
Theorem splitCsv_chunk_sizes (lines : list string) :
  exists files,
    SplitCsv.splitCsv lines = Some files
    /\ forall k f, files !! k = Some f ->
         fst f = SplitCsv.chunk_path (S k)
         /\ (1 <= length (SplitCsv.rows_of f) <= SplitCsv.ROWS_PER_FILE)%nat
         /\ (S k < length files ->
             length (SplitCsv.rows_of f) = SplitCsv.ROWS_PER_FILE)%nat.
Proof.
  destruct (split_with_spec _ ROWS_PER_FILE_positive lines)
    as (files & Hsplit & _ & _ & Hpaths & Hsizes & _).
  exists files. split; [exact Hsplit|]. intros k f Hk.
  split; [|by apply Hsizes].
  by apply (chunk_file_name files).
Qed.

Lemma splitCsv_chunk_names (lines : list string) :
  exists files,
    SplitCsv.splitCsv lines = Some files
    /\ (forall k f, files !! k = Some f ->
          fst f = "../public" ++ CSVReader.chunk_url (S k))
    /\ (length (tail (SplitCsv.from_header lines))
        <= length files * SplitCsv.ROWS_PER_FILE)%nat
    /\ (length files * SplitCsv.ROWS_PER_FILE
        < length (tail (SplitCsv.from_header lines)) + SplitCsv.ROWS_PER_FILE)%nat.
Proof.
  destruct (split_with_spec _ ROWS_PER_FILE_positive lines)
    as (files & Hsplit & _ & _ & Hpaths & _ & Hlow & Hhigh).
  exists files. split; [exact Hsplit|]. split; [|by split].
  intros k f Hk. rewrite (chunk_file_name files k f Hpaths Hk). reflexivity.
Qed.

(** X16.  The windowed loader fetches the chunks 1 to 18 from the public
    directory.  The k-th file that [splitCsv] writes is the one the
    loader fetches as chunk k, and the loader reaches every chunk
    exactly when the input has at most 18 times [ROWS_PER_FILE] data
    rows: the rows beyond are written to chunks that are never
    loaded. *)
Theorem splitCsv_chunks_are_loaded (lines : list string) :
  exists files,
    SplitCsv.splitCsv lines = Some files
    /\ (forall k f, files !! k = Some f ->
          fst f = "../public" ++ CSVReader.chunk_url (S k))
    /\ ((length files <= totalChunks)%nat
        <-> (length (tail (SplitCsv.from_header lines))
             <= totalChunks * SplitCsv.ROWS_PER_FILE)%nat).
Proof.
  destruct (splitCsv_chunk_names lines) as (files & Hsplit & Hnames & Hlow & Hhigh).
  exists files. split; [exact Hsplit|]. split; [exact Hnames|].
  pose proof ROWS_PER_FILE_positive. unfold totalChunks. nia.
Qed.

(** ** The image script *)

Section Images.

Variable World : Type.
Variable image : Type.
Variable downloadImage : string -> World -> option image * World.
Variable uploadToS3 : image -> string -> World -> outcome (option string) * World.

Local Notation "'process_row'" := (ProcessImages.process_row World image downloadImage uploadToS3).
Local Notation "'process_rows'" := (ProcessImages.process_rows World image downloadImage uploadToS3).
Local Notation "'processImages'" := (ProcessImages.processImages World image downloadImage uploadToS3).

Lemma photo_update_refl (r : gmap string string) : photo_update r r.
Proof.
  split; [reflexivity|]. split; [done|].
  unfold ProcessImages.has_remote_photo. destruct (r !! "photo") as [photo|]; [|done].
  intros H. apply andb_true_iff in H as [H _]. exists photo. split; [done|].
  intros ->. discriminate.
Qed.

Lemma process_row_update (r r' : gmap string string) (counted : bool) (w w' : World) :
  process_row r w = (Resolved (r', counted), w') ->
  photo_update r r' /\ (counted = true -> ProcessImages.has_remote_photo r = true).
Proof.
  unfold ProcessImages.process_row.
  destruct (ProcessImages.has_remote_photo r) eqn:Hremote.
  2:{ intros [= <- <- <-]. split; [apply photo_update_refl|done]. }
  destruct (downloadImage _ w) as [[img|] w1].
  2:{ intros [= <- <- <-]. split; [apply photo_update_refl|done]. }
  destruct (uploadToS3 img _ w1) as [[[url|]|e] w2]; try discriminate.
  2:{ intros [= <- <- <-]. split; [apply photo_update_refl|done]. }
  destruct (String.eqb_spec url "") as [->|Hurl]; simpl.
  { intros [= <- <- <-]. split; [apply photo_update_refl|done]. }
  intros [= <- <- <-]. split; [|done]. split; [|split].
  - apply delete_insert_eq.
  - by rewrite Hremote.
  - intros _. exists url. by rewrite lookup_insert_eq.
Qed.

Lemma process_rows_spec (rows : list (gmap string string)) :
  forall (acc updated : list (gmap string string)) (c count : nat) (w w' : World),
  process_rows rows acc c w = (Resolved (updated, count), w') ->
  exists new,
    updated = (acc ++ new)%list
    /\ Forall2 photo_update rows new
    /\ (c <= count <= c + length (List.filter ProcessImages.has_remote_photo rows))%nat.
Proof.
  induction rows as [|r rows IH]; intros acc updated c count w w'; simpl.
  - intros [= <- <- <-]. exists []. rewrite app_nil_r. repeat split; [constructor|lia..].
  - destruct (process_row r w) as [[[r' counted]|e] w1] eqn:Hrow; [|discriminate].
    intros Hrest. apply IH in Hrest as (new & -> & Hnew & Hcount).
    apply process_row_update in Hrow as [Hupd Hcounted].
    exists (r' :: new). rewrite <- app_assoc. split; [reflexivity|].
    split; [by constructor|].
    destruct counted.
    + rewrite Hcounted by done. simpl. lia.
    + destruct (ProcessImages.has_remote_photo r); simpl; lia.
Qed.

(** X17.  When [processImages] completes, the rows it writes back are the
    rows it read, in their order and number, changed at most in
    [photo]: a row without a remote photo is written back as it was,
    and a remote photo is replaced only by a location that is not
    empty.  The count it reports is at most the number of rows with a
    remote photo. *)
Theorem processImages_preserves_rows
    (rows updated : list (gmap string string)) (count : nat) (w w' : World) :
  processImages rows w = (Resolved (updated, count), w') ->
  Forall2 photo_update rows updated
  /\ length updated = length rows
  /\ (count <= length (List.filter ProcessImages.has_remote_photo rows))%nat.
Proof.
  unfold ProcessImages.processImages. intros H.
  apply process_rows_spec in H as (new & -> & Hnew & Hcount). simpl.
  split; [exact Hnew|]. split; [|lia].
  symmetry. by eapply Forall2_length.
Qed.

(** X18.  Without a row that has a remote photo nothing is downloaded or
    uploaded: the rows are written back unchanged, the count is 0 and
    the world is as it was. *)
Theorem processImages_without_remote_photos (rows : list (gmap string string)) (w : World) :
  Forall (fun r => ProcessImages.has_remote_photo r = false) rows ->
  processImages rows w = (Resolved (rows, 0%nat), w).
Proof.
  unfold ProcessImages.processImages. intros Hrows.
  assert (Hgen : forall acc c,
            process_rows rows acc c w = (Resolved ((acc ++ rows)%list, c), w)).
  { induction Hrows as [|r rows Hr _ IH]; intros acc c; simpl.
    - by rewrite app_nil_r.
    - unfold ProcessImages.process_row. rewrite Hr, IH. by rewrite <- app_assoc. }
  exact (Hgen [] 0%nat).
Qed.

End Images.

Lemma processImages_preserves_rows_witness :
  exists updated count,
    ProcessImages.processImages unit unit example_download example_upload photo_rows tt
    = (Resolved (updated, count), tt)
    /\ length updated = 3%nat /\ (count <= 1)%nat.
Proof.
  destruct (ProcessImages.processImages unit unit example_download example_upload
              photo_rows tt) as [[[updated count]|e] []] eqn:E;
    [|vm_compute in E; discriminate].
  exists updated, count. split; [reflexivity|].
  pose proof (processImages_preserves_rows unit unit example_download example_upload
                photo_rows updated count tt tt E) as (_ & Hlen & Hcount).
  split; [exact Hlen|exact Hcount].
Defined.

Lemma processImages_without_remote_photos_witness :
  ProcessImages.processImages unit unit example_download example_upload
    [commercial_example; traffic_example] tt
  = (Resolved ([commercial_example; traffic_example], 0%nat), tt).
Proof.
  apply processImages_without_remote_photos.
  repeat constructor.
Defined.
